(** * pyTAB core: acquisition pipeline and concurrency ramp

    A shallow embedding of [src/pytab/core.py] (the client of the Jellyfin
    hardware survey) and the properties its specification states about it.

    The Python functions are embedded one by one, under their own names:
    [match_hash], [calculate_sha256], [obtainSource], [unpackArchive],
    [benchmark] and [output_json].  Code that touches the outside world
    (file system, HTTP, terminal) runs in a small state-and-exception monad
    over a [World]; every effect is also appended to a trace, so that
    "how many fetches" and "how many deletions" are questions about a list.

    What is not part of [core.py] is a parameter of the development:
    the digest function of [hashlib], [os.path.realpath], the archive
    decoders of [zipfile] and [tarfile], the JSON printer and the worker
    primitive [worker.workMan]. *)

From Stdlib Require Import ZArith Ascii String List Floats.
From stdpp Require Import base option gmap sets list strings.

Local Open Scope Z_scope.
Local Open Scope string_scope.

(** ** Python values shared by the components *)

Definition bytes := list Byte.byte.

(** The exceptions the embedded code can meet. *)
Inductive exn :=
| FileNotFoundError
| FileExistsError
| IsADirectoryError
| NotADirectoryError
| TypeError
| IndexError
| RequestException
| BadArchive.

Inductive result (A : Type) :=
| Ret (a : A)
| Raise (e : exn).
Arguments Ret {A} a.
Arguments Raise {A} e.

(** ** The world: file system, remote server, terminal *)

(** A server's answer to one GET: the request raises, or a response with
    a status code and a body comes back. *)
Inductive http :=
| HttpFault
| HttpReply (status_code : Z) (content : bytes).

Inductive event :=
| EvEcho (message : string) (nl : bool)
| EvGet (url : string)
| EvWrite (path : string)
| EvRemove (path : string)
| EvMakedirs (path : string)
| EvRmtree (path : string).

(** What a path names. *)
Inductive node :=
| File (content : bytes)
| Dir.

(** The file system is a flat map from path strings to nodes: a path is
    absent, a regular file or a directory, and names what was put there
    under exactly that string (no links, no normalisation, a directory is
    recorded by itself).  Its operations do not fail half-way.  [remote] is
    what the server would answer for each URL; no operation changes it. *)
Record World := mkWorld {
  fs : gmap string node;
  remote : string -> http;
  trace : list event
}.

(** The content of the regular file at a path, if there is one. *)
Definition file_at (w : World) (p : string) : option bytes :=
  match fs w !! p with
  | Some (File c) => Some c
  | _ => None
  end.

Definition log (ev : event) (w : World) : World :=
  mkWorld (fs w) (remote w) (trace w ++ [ev]).

Definition set_fs (m : gmap string node) (w : World) : World :=
  mkWorld m (remote w) (trace w).

(** ** State and exception monad *)

Definition M (A : Type) : Type := World -> result A * World.

Definition ret {A} (a : A) : M A := fun w => (Ret a, w).
Definition raise {A} (e : exn) : M A := fun w => (Raise e, w).
Definition bind {A B} (m : M A) (k : A -> M B) : M B :=
  fun w => match m w with
           | (Ret a, w') => k a w'
           | (Raise e, w') => (Raise e, w')
           end.

(** [try: body except Exception: handler] *)
Definition try_except {A} (body handler : M A) : M A :=
  fun w => match body w with
           | (Ret a, w') => (Ret a, w')
           | (Raise _, w') => handler w'
           end.

#[global] Instance M_ret : MRet M := @ret.
#[global] Instance M_bind : MBind M := fun A B k m => bind m k.

(** ** Terminal: click *)

(** Colour is presentation only: the escape sequences are left out. *)
Definition style (text fg : string) : string := text.

Definition echo (message : string) (nl : bool) : M unit :=
  fun w => (Ret tt, log (EvEcho message nl) w).

(** ** posixpath *)

Definition slash : Ascii.ascii := "/"%char.

Fixpoint has_slash (p : string) : bool :=
  match p with
  | EmptyString => false
  | String c r => if Ascii.eqb c slash then true else has_slash r
  end.

(** [p[p.rfind('/') + 1:]] *)
Fixpoint basename (p : string) : string :=
  match p with
  | EmptyString => EmptyString
  | String c r =>
      if has_slash r then basename r
      else if Ascii.eqb c slash then r else String c r
  end.

(** [p[:p.rfind('/') + 1]] *)
Fixpoint head_of (p : string) : string :=
  match p with
  | EmptyString => EmptyString
  | String c r =>
      if has_slash r then String c (head_of r)
      else if Ascii.eqb c slash then String c EmptyString else EmptyString
  end.

Fixpoint all_slashes (p : string) : bool :=
  match p with
  | EmptyString => true
  | String c r => Ascii.eqb c slash && all_slashes r
  end.

(** [p.rstrip('/')] *)
Fixpoint rstrip_slash (p : string) : string :=
  match p with
  | EmptyString => EmptyString
  | String c r => if all_slashes r && Ascii.eqb c slash then EmptyString
                  else String c (rstrip_slash r)
  end.

Definition dirname (p : string) : string :=
  let head := head_of p in
  if negb (String.eqb head "") && negb (all_slashes head)
  then rstrip_slash head else head.

Definition startswith (s pre : string) : bool := String.prefix pre s.

Definition endswith (s suf : string) : bool :=
  let n := String.length s in
  let m := String.length suf in
  (m <=? n)%nat && String.eqb (String.substring (n - m) m s) suf.

(** [os.path.join(a, b)] *)
Definition join (a b : string) : string :=
  if startswith b "/" then b
  else if String.eqb a "" || endswith a "/" then a ++ b
  else a ++ "/" ++ b.

(** ** File-system primitives *)

Definition path_exists (p : string) : M bool :=
  fun w => (Ret (bool_decide (is_Some (fs w !! p))), w).

(** [with open(p, "rb") as f: ...f.read()...] *)
Definition read_file (p : string) : M bytes :=
  fun w => match fs w !! p with
           | Some (File c) => (Ret c, w)
           | Some Dir => (Raise IsADirectoryError, w)
           | None => (Raise FileNotFoundError, w)
           end.

(** [with open(p, "wb") as f: f.write(c)] *)
Definition write_file (p : string) (c : bytes) : M unit :=
  fun w => match fs w !! p with
           | Some Dir => (Raise IsADirectoryError, w)
           | _ => (Ret tt, log (EvWrite p) (set_fs (<[p := File c]> (fs w)) w))
           end.

Definition os_remove (p : string) : M unit :=
  fun w => match fs w !! p with
           | Some (File _) => (Ret tt, log (EvRemove p) (set_fs (delete p (fs w)) w))
           | Some Dir => (Raise IsADirectoryError, w)
           | None => (Raise FileNotFoundError, w)
           end.

(** [os.makedirs(p, exist_ok=...)]: the empty path cannot be created, an
    existing path is an error unless it is a directory and [exist_ok]. *)
Definition os_makedirs (p : string) (exist_ok : bool) : M unit :=
  fun w => if String.eqb p "" then (Raise FileNotFoundError, w)
           else match fs w !! p with
                | Some Dir => if exist_ok then (Ret tt, w) else (Raise FileExistsError, w)
                | Some (File _) => (Raise FileExistsError, w)
                | None => (Ret tt, log (EvMakedirs p) (set_fs (<[p := Dir]> (fs w)) w))
                end.

(** Is [q] strictly below directory [p]? *)
Definition below (p q : string) : bool := startswith q (p ++ "/").

(** [shutil.rmtree(p)] *)
Definition rmtree (p : string) : M unit :=
  fun w => match fs w !! p with
           | Some Dir =>
               (Ret tt,
                log (EvRmtree p)
                    (set_fs (filter (fun kv => below p kv.1 = false) (delete p (fs w))) w))
           | Some (File _) => (Raise NotADirectoryError, w)
           | None => (Raise FileNotFoundError, w)
           end.

(** [requests.get(url)] *)
Definition reqGet (url : string) : M (Z * bytes) :=
  fun w => match remote w url with
           | HttpFault => (Raise RequestException, log (EvGet url) w)
           | HttpReply status body => (Ret (status, body), log (EvGet url) w)
           end.

(** ** Hash negotiator *)

(** A hash descriptor is a Python dict: its items in insertion order.  A
    dict holds a key once; on a list that repeats a key [dict_get] reads
    the first binding. *)
Definition dict := list (string * string).

Fixpoint dict_get (d : dict) (k : string) : option string :=
  match d with
  | [] => None
  | (k', v) :: rest => if String.eqb k' k then Some v else dict_get rest k
  end.

Definition keys (d : dict) : list string := map fst d.

Definition supported_hashes : list string := ["sha256"].

Definition contains (l : list string) (k : string) : bool :=
  existsb (String.eqb k) l.

(** The [for hash in hash_dict] loop: stops at the first key that is one of
    [supported_hashes]. *)
Fixpoint first_supported (ks : list string) : option string :=
  match ks with
  | [] => None
  | hash :: rest =>
      if contains supported_hashes hash then Some hash
      else first_supported rest
  end.

Definition when (b : bool) (m : M unit) : M unit := if b then m else ret tt.

Definition match_hash (hash_dict : dict) (output : bool)
  : M (option string * option string) :=
  match hash_dict with
  | [] =>
      when output (echo ("Note: " ++ style "This file cannot be hash-verified!" "yellow") true) ;;
      ret (None, None)
  | _ =>
      match first_supported (keys hash_dict) with
      | Some hash =>
          when output (echo ("Note: Compatible hashing method found. Using " ++ hash) true) ;;
          ret (Some hash, dict_get hash_dict hash)
      | None =>
          when output
            (echo ("Note: " ++ style "This Client cannot hash-verify this file!" "yellow") true) ;;
          ret (None, None)
      end
  end.

(** The contract as the specification words it: the allow-list is walked
    in its own order and the first algorithm the descriptor offers wins. *)
Fixpoint negotiate_by_allow_list (allow : list string) (hash_dict : dict)
  : option string * option string :=
  match allow with
  | [] => (None, None)
  | a :: rest =>
      if contains (keys hash_dict) a then (Some a, dict_get hash_dict a)
      else negotiate_by_allow_list rest hash_dict
  end.

(** ** Artifact acquirer *)

(** What [obtainSource] hands back next to its success flag: a path or a
    message (a [str]), or an HTTP status (an [int]). *)
Inductive value :=
| PStr (s : string)
| PInt (z : Z).

(** [a == b] on values that are [None] or a [str]. *)
Definition py_eq (a b : option string) : bool := bool_decide (a = b).

Definition is_none (a : option string) : bool :=
  match a with None => true | Some _ => false end.

(** [iter(lambda: f.read(4096), b"")]: the blocks a file is read in. *)
Fixpoint blocks (fuel size : nat) (c : bytes) : list bytes :=
  match fuel with
  | O => []
  | S fuel' =>
      match c with
      | [] => []
      | _ => take size c :: blocks fuel' size (drop size c)
      end
  end.

Definition read_blocks (c : bytes) : list bytes := blocks (length c) 4096 c.

Section Acquirer.

(** [hashlib]: the hex digest of everything a fresh [sha256()] object was
    updated with. *)
Variable sha256 : bytes -> string.
Variable realpath : string -> string.

Definition calculate_sha256 (file_path : string) : M string :=
  c ← read_file file_path;
  mret (sha256 (foldl (fun fed byte_block => (fed ++ byte_block)%list) [] (read_blocks c))).

(** The [try] block of lines 109 to 119; [None] when control falls through
    to line 120, otherwise the tuple returned from inside the block. *)
Definition try_download (source_url file_path : string) (notify_on_download : bool)
  : M (option (bool * value)) :=
  try_except
    ('(status_code, content) ← reqGet source_url;
     if Z.eqb status_code 200 then
       write_file file_path content;;
       when notify_on_download (echo " success!" true);;
       mret None
     else mret (Some (false, PInt status_code)))
    (mret (Some (false, PStr "Unknown Error!"))).

(** Lines 102 to 125: create the directory, download, verify. *)
Definition fetch_source (target_path source_url file_path : string)
    (source_hash : option string) (notify_on_download : bool) : M (bool * value) :=
  target_present ← path_exists target_path;
  when (negb target_present) (os_makedirs target_path false);;
  when notify_on_download (echo "Downloading file..." false);;
  early ← try_download source_url file_path notify_on_download;
  match early with
  | Some failure => mret failure
  | None =>
      downloaded_checksum ← calculate_sha256 file_path;
      if py_eq (Some downloaded_checksum) source_hash || is_none source_hash
      then mret (true, PStr file_path)
      else os_remove file_path;; mret (false, PStr "Invalid Checksum!")
  end.

Definition obtainSource (target_path source_url : string) (hash_dict : dict)
    (notify_on_download : bool) : M (bool * value) :=
  '(hash_algorithm, source_hash) ← match_hash hash_dict notify_on_download;
  let target_path := realpath target_path in
  let filename := basename source_url in
  let file_path := join target_path filename in
  present ← path_exists file_path;
  if (present : bool) then
    existing_checksum ←
      (if py_eq hash_algorithm (Some "sha256")
       then (c ← calculate_sha256 file_path; mret (Some c))
       else (mret None : M (option string)));
    if py_eq existing_checksum source_hash || is_none source_hash
    then mret (true, PStr file_path)
    else os_remove file_path;;
         fetch_source target_path source_url file_path source_hash notify_on_download
  else fetch_source target_path source_url file_path source_hash notify_on_download.

(** The digest check of lines 97 and 121 accepts the content. *)
Definition verifies (source_hash : option string) (c : bytes) : Prop :=
  source_hash = None ∨ source_hash = Some (sha256 c).

(** A copy is at [file_path] that the check of line 97 accepts: any node
    when nothing is to be verified, a file with the expected digest
    otherwise. *)
Definition cached_valid (w : World) (file_path : string) (source_hash : option string)
  : Prop :=
  is_Some (fs w !! file_path)
  ∧ (source_hash = None
     ∨ ∃ c, file_at w file_path = Some c ∧ source_hash = Some (sha256 c)).

(** The path the artifact is kept at. *)
Definition artifact_path (target_path source_url : string) : string :=
  join (realpath target_path) (basename source_url).

End Acquirer.

(** Counting effects in a trace. *)
Definition is_get (ev : event) : bool :=
  match ev with EvGet _ => true | _ => false end.

Definition is_remove (ev : event) : bool :=
  match ev with EvRemove _ => true | _ => false end.

Definition fetches (t : list event) : nat := length (List.filter is_get t).
Definition deletions (t : list event) : nat := length (List.filter is_remove t).

(** Whatever the outcome (a value or an exception), [m] deletes at most
    [n] files. *)
Definition deletes_at_most {A} (n : nat) (m : M A) : Prop :=
  ∀ w, (deletions (trace (m w).2) <= deletions (trace w) + n)%nat.

(** [w'] differs from [w] by terminal output and new directories only:
    same server, same regular files, no fetch, no deletion. *)
Definition quiet (w w' : World) : Prop :=
  remote w' = remote w
  ∧ fetches (trace w') = fetches (trace w)
  ∧ deletions (trace w') = deletions (trace w)
  ∧ (∀ q, file_at w' q = file_at w q)
  ∧ (∀ q, is_Some (fs w !! q) -> is_Some (fs w' !! q)).


(** ** Archive unpacker *)

Section Unpacker.

(** [zipfile] and [tarfile]: the members of an archive, or nothing when
    the bytes are not an archive of that format. *)
Variable unzip : bytes -> option (list (string * bytes)).
Variable untar_gz : bytes -> option (list (string * bytes)).

Fixpoint write_members (target_path : string) (members : list (string * bytes)) : M unit :=
  match members with
  | [] => mret tt
  | (name, content) :: rest =>
      write_file (join target_path name) content;;
      write_members target_path rest
  end.

Definition extractall (decode : bytes -> option (list (string * bytes)))
    (archive_path target_path : string) : M unit :=
  raw ← read_file archive_path;
  match decode raw with
  | Some members => write_members target_path members
  | None => raise BadArchive
  end.

Definition unpackArchive (archive_path target_path : string) : M unit :=
  present ← path_exists target_path;
  when present
    (rmtree target_path;;
     echo ("INFO: " ++ style "Replacing existing files with validated ones." "cyan") true);;
  os_makedirs target_path false;;
  echo "Unpacking Archive..." false;;
  (if endswith archive_path ".zip" then extractall unzip archive_path target_path
   else if endswith archive_path ".tar.gz" then extractall untar_gz archive_path target_path
   else mret tt);;
  echo " success!" true.

End Unpacker.

(** ** Worker ramp controller *)

(** One measurement of the worker primitive: the dict with the keys
    ["workers"], ["speed"] and ["rss_kb"]. *)
Record sample := mkSample {
  workers : Z;
  speed : float;
  rss_kb : Z
}.

(** The second component of what [worker.workMan] returns: an error
    detail or the measurement. *)
Inductive payload :=
| Detail (d : string)
| Metrics (m : sample).

(** The local variables of [benchmark]. *)
Record ramp_state := mkRamp {
  runs : list sample;
  total_workers : Z;
  run : bool;
  last_Speed : float;
  failure_reason : list payload
}.

(** The dict built on line 178. *)
Record summary := mkSummary {
  max_streams : Z;
  failure_reasons : list payload;
  single_worker_speed : float;
  single_worker_rss_kb : Z
}.

Definition ramp_start : ramp_state :=
  mkRamp [] 1 true (-0.5)%float [].

(** [speed < 1] on floats (false on a NaN). *)
Definition below_real_time (x : float) : bool := PrimFloat.ltb x 1%float.

(** Why an outcome of the primitive ends the ramp, if it does: the payload
    of an error, or ["performance"] for a measurement below real time. *)
Definition stop_reason (output : bool * payload) : option payload :=
  if output.1 then Some output.2
  else match output.2 with
       | Metrics m => if below_real_time (speed m) then Some (Detail "performance")
                      else None
       | Detail _ => None
       end.

(** The measurement an outcome adds to the ramp, if it adds one. *)
Definition accepted (output : bool * payload) : option sample :=
  if output.1 then None
  else match output.2 with
       | Metrics m => if below_real_time (speed m) then None else Some m
       | Detail _ => None
       end.

Section Ramp.

(** [worker.workMan(total_workers, ffmpeg_cmd)]: a pair of an error flag
    and a payload.  Within one ramp every worker count is asked for at most
    once, so a function of the count describes any sequence of outcomes. *)
Variable workMan : Z -> string -> bool * payload.

(** One turn of the [while run] loop (the progress bar only displays). *)
Definition ramp_step (ffmpeg_cmd : string) (st : ramp_state) : result ramp_state :=
  let output := workMan (total_workers st) ffmpeg_cmd in
  if output.1 then
    Ret (mkRamp (runs st) (total_workers st) false (last_Speed st)
                (failure_reason st ++ [output.2]))
  else
    match output.2 with
    | Detail _ => Raise TypeError
    | Metrics m =>
        if below_real_time (speed m) then
          Ret (mkRamp (runs st) (total_workers st) false (last_Speed st)
                      (failure_reason st ++ [Detail "performance"]))
        else
          Ret (mkRamp (runs st ++ [m]) (total_workers st + 1) (run st) (speed m)
                      (failure_reason st))
    end.

(** The loop itself; [None] when [fuel] turns did not reach the end. *)
Fixpoint ramp_loop (fuel : nat) (ffmpeg_cmd : string) (st : ramp_state)
  : option (result ramp_state) :=
  if run st then
    match fuel with
    | O => None
    | S fuel' =>
        match ramp_step ffmpeg_cmd st with
        | Ret st' => ramp_loop fuel' ffmpeg_cmd st'
        | Raise e => Some (Raise e)
        end
    end
  else Some (Ret st).

(** Lines 177 to 186; [None] stands for the empty dict. *)
Definition ramp_result (st : ramp_state) : result (bool * list sample * option summary) :=
  if (0 <? length (runs st))%nat then
    match runs st !! (length (runs st) - 1)%nat with
    | Some final =>
        Ret (true, runs st,
             Some (mkSummary (workers final) (failure_reason st) (speed final) (rss_kb final)))
    | None => Raise IndexError
    end
  else Ret (false, runs st, None).

Definition benchmark (fuel : nat) (ffmpeg_cmd : string)
  : option (result (bool * list sample * option summary)) :=
  match ramp_loop fuel ffmpeg_cmd ramp_start with
  | Some (Ret st) => Some (ramp_result st)
  | Some (Raise e) => Some (Raise e)
  | None => None
  end.

(** What holds of the local variables each time the loop condition is
    tested. *)
Definition ramp_inv (ffmpeg_cmd : string) (st : ramp_state) : Prop :=
  total_workers st = Z.of_nat (length (runs st)) + 1
  ∧ (if run st then failure_reason st = []
     else ∃ reason, failure_reason st = [reason])
  ∧ ∀ (i : nat) s, runs st !! i = Some s ->
      accepted (workMan (Z.of_nat i + 1) ffmpeg_cmd) = Some s.

End Ramp.

(** The failure reasons a returned result carries, if it carries any. *)
Definition reported_reasons (r : bool * list sample * option summary)
  : option (list payload) :=
  failure_reasons <$> r.2.

(** Worker counts 1, 2, ..., k for some k. *)
Definition counts_from_one (rs : list sample) : Prop :=
  ∃ k : nat, workers <$> rs = seqZ 1 (Z.of_nat k).

(** ** Report output *)

Definition encode (text : string) : bytes := String.list_byte_of_string text.

(** [if file_path:] on a value that is [None] or a [str]. *)
Definition truthy (file_path : option string) : bool :=
  match file_path with
  | Some p => negb (String.eqb p "")
  | None => false
  end.

(** [os.path.dirname(file_path)]; [None] is not a path. *)
Definition os_path_dirname (file_path : option string) : M string :=
  match file_path with
  | Some p => mret (dirname p)
  | None => raise TypeError
  end.

Section Report.

Variable Data : Type.
(** [json.dumps(data, indent=4)] *)
Variable dumps : Data -> string.

Definition output_json (data : Data) (file_path : option string) : M unit :=
  parent ← os_path_dirname file_path;
  os_makedirs parent true;;
  if truthy file_path then
    write_file (default "" file_path) (encode (dumps data));;
    echo ("Data successfully saved to " ++ default "" file_path) true
  else
    echo "" true;;
    echo "No output file specified. Writing to stdout." true;;
    echo (dumps data) true.

End Report.

(** ** Vocabulary of the further properties *)

(** Whatever the outcome (a value or an exception), [m] sends at most [n]
    requests. *)
Definition fetches_at_most {A} (n : nat) (m : M A) : Prop :=
  ∀ w, (fetches (trace (m w).2) <= fetches (trace w) + n)%nat.

(** How a path fares between two worlds when a computation leaves it
    alone: it names what it named, or (for a path the computation may
    create as a directory) it was absent and is a directory now. *)
Definition kept (made : string -> Prop) (w w' : World) (q : string) : Prop :=
  fs w' !! q = fs w !! q
  ∨ (made q ∧ fs w !! q = None ∧ fs w' !! q = Some Dir).

(** Whatever the outcome, [m] only adds to the trace, and what it adds
    satisfies [ok]; it leaves the server alone; a path that is not
    [touched] is kept, up to the creation of the directories [made]. *)
Definition behaves (ok : event -> Prop) (touched made : string -> Prop) {A} (m : M A)
  : Prop :=
  ∀ w, (∃ t, trace (m w).2 = (trace w ++ t)%list ∧ Forall ok t)
       ∧ remote (m w).2 = remote w
       ∧ ∀ q, ¬ touched q -> kept made w (m w).2 q.

(** The effects [obtainSource] may have: terminal output, requests for the
    source URL, writing and removing the artifact, creating the target
    directory. *)
Definition acquirer_effect (target_path source_url file_path : string) (ev : event)
  : Prop :=
  match ev with
  | EvEcho _ _ => True
  | EvGet url => url = source_url
  | EvWrite p => p = file_path
  | EvRemove p => p = file_path
  | EvMakedirs p => p = target_path
  | EvRmtree _ => False
  end.

Section AcquirerVerdict.

Variable sha256 : bytes -> string.





End AcquirerVerdict.


(** The file system after lines 129 to 135: what was at or below the
    target directory is gone and the directory is there, empty. *)
Definition cleared (target_path : string) (m : gmap string node) : gmap string node :=
  <[target_path := Dir]>
    (match m !! target_path with
     | Some _ => filter (fun kv => below target_path kv.1 = false) (delete target_path m)
     | None => m
     end).

(** The file system after [extractall]: the members written one after
    the other. *)
Definition unpacked (target_path : string) (members : list (string * bytes))
    (m : gmap string node) : gmap string node :=
  foldl (fun fs_now member => <[join target_path member.1 := File member.2]> fs_now)
        m members.

(** The paths [extractall] writes. *)
Definition member_paths (target_path : string) (members : list (string * bytes))
  : list string :=
  (fun member => join target_path member.1) <$> members.

Section UnpackerDispatch.

Variable unzip : bytes -> option (list (string * bytes)).
Variable untar_gz : bytes -> option (list (string * bytes)).

(** Lines 139 to 144: the decoder the suffix selects, if it selects one. *)
Definition archive_decoder (archive_path : string)
  : option (bytes -> option (list (string * bytes))) :=
  if endswith archive_path ".zip" then Some unzip
  else if endswith archive_path ".tar.gz" then Some untar_gz
  else None.

End UnpackerDispatch.

(** The target directory exists, or nothing is at or below its path. *)
Definition target_free (w : World) (target_path : string) : Prop :=
  fs w !! target_path = Some Dir
  ∨ ∀ q, q = target_path ∨ below target_path q = true -> fs w !! q = None.

(** A directory path as [cli] builds it, and member names that are
    relative. *)
Definition plain_dir (target_path : string) : Prop :=
  target_path ≠ "" ∧ endswith target_path "/" = false.

Definition relative (name : string) : Prop := startswith name "/" = false.

(** ** Command line client: loading ffmpeg and the test files *)

(** [exit()] ends the client; no handler of [cli] or of the functions it
    calls catches it.  A block of [cli] either exits or goes on with a
    value. *)
Inductive flow (A : Type) :=
| Exited
| Continue (a : A).
Arguments Exited {A}.
Arguments Continue {A} a.


(** [click.pause(info)]: the message is shown and a key awaited; the key
    changes nothing in the world, and the line is recorded as one piece of
    terminal output. *)
Definition pause (info : string) : M unit := echo info true.

(** [f"{v}"] on what [obtainSource] hands back. *)
Definition str (v : value) : string :=
  match v with
  | PStr s => s
  | PInt z => pretty.pretty z
  end.

Definition quote : string := String (Ascii.ascii_of_nat 34) "".


(** An element of [server_data["tests"]]: the keys the download loop
    reads. *)
Record test_file := mkTestFile {
  name : string;
  source_url : string;
  source_hashs : dict
}.

(** Lines 337 and 338: the path the benchmark loop reads a test file
    from. *)
Definition current_file (video_path : string) (file : test_file) : string :=
  video_path ++ "/" ++ basename (source_url file).



Section Client.

Variable sha256 : bytes -> string.
Variable realpath : string -> string.
Variable unzip : bytes -> option (list (string * bytes)).
Variable untar_gz : bytes -> option (list (string * bytes)).


(** The loop of lines 312 to 325 of [cli]: every test file is obtained in
    turn, the first failure ends the client. *)
Fixpoint obtain_test_files (video_path : string) (files : list test_file)
  : M (flow unit) :=
  match files with
  | [] => mret (Continue tt)
  | file :: rest =>
      echo ("| " ++ quote ++ basename (name file) ++ quote ++ " -") false;;
      '(success, output) ← obtainSource sha256 realpath video_path
                             (source_url file) (source_hashs file) false;
      if (success : bool) then
        echo " success!" true;;
        obtain_test_files video_path rest
      else
        echo " Error" true;;
        echo "" true;;
        echo ("The following Error occured: " ++ str output) true;;
        pause "Press any key to exit";;
        mret Exited
  end.

End Client.

(** The digest a test file is verified against, if any: the second
    component of what [match_hash] returns for its descriptor. *)
Definition expected_digest (file : test_file) : option string :=
  match first_supported (keys (source_hashs file)) with
  | Some hash => dict_get (source_hashs file) hash
  | None => None
  end.

(** An effect other than the removal of a directory tree. *)
Definition no_rmtree (ev : event) : Prop :=
  match ev with
  | EvRmtree _ => False
  | _ => True
  end.

(** Terminal output, as opposed to the effects on files and server. *)
Definition is_echo (ev : event) : bool :=
  match ev with EvEcho _ _ => true | _ => false end.

(** What a trace says apart from terminal output. *)
Definition actions (t : list event) : list event :=
  List.filter (fun ev => negb (is_echo ev)) t.

(** Two worlds that differ at most in what the terminal showed. *)
Definition same_but_echo (w1 w2 : World) : Prop :=
  fs w1 = fs w2 ∧ remote w1 = remote w2 ∧ actions (trace w1) = actions (trace w2).

(** Two computations that, from worlds which differ at most in terminal
    output, have the same outcome and leave such worlds again. *)
Definition alike {A} (m1 m2 : M A) : Prop :=
  ∀ w1 w2, same_but_echo w1 w2 ->
           (m1 w1).1 = (m2 w2).1 ∧ same_but_echo (m1 w1).2 (m2 w2).2.

(** ** Concrete inputs

    Worlds and parameters the development is run on. *)

(** A stand-in for [hashlib] on examples: the digest of a content is the
    content read as text.  The examples never depend on more than on which
    digests are equal. *)
Definition demo_digest (c : bytes) : string := String.string_of_list_byte c.

(** The cache directory holds an outdated copy of the clip. *)
Definition stale_cache : gmap string node :=
  <["/cache" := Dir]> (<["/cache/clip.mkv" := File (encode "old")]> ∅).

(** The cache directory exists and is empty. *)
Definition empty_cache : gmap string node := <["/cache" := Dir]> ∅.

Definition clip_url : string := "http://host/media/clip.mkv".


(** Stale copy, and the server answers with content of yet another digest. *)
Definition stale_corrupt : World :=
  mkWorld stale_cache (fun _ => HttpReply 200 (encode "bad")) [].

(** Nothing cached, and the server answers with the expected content. *)
Definition cold_online : World :=
  mkWorld empty_cache (fun _ => HttpReply 200 (encode "new")) [].


(** A worker that sustains real time with one to three streams and drops
    to 0.6 with four. *)
Definition saturating_worker (n : Z) (cmd : string) : bool * payload :=
  (false,
   Metrics (mkSample n (if (n <=? 3)%Z then 1.5%float else 0x1.3333333333333p-1%float)
                     (n * 1000))).

(** A worker whose first measurement names seven workers, and which fails
    when asked for two. *)
Definition misreporting_worker (n : Z) (cmd : string) : bool * payload :=
  if (n =? 1)%Z then (false, Metrics (mkSample 7 2%float 1000))
  else (true, Detail "ffmpeg exited").

(** A worker that cannot run ffmpeg at all. *)
Definition failing_worker (n : Z) (cmd : string) : bool * payload :=
  (true, Detail "ffmpeg exited").




(** A worker that sustains 1.5 times real time whatever the load. *)
Definition steady_worker (n : Z) (cmd : string) : bool * payload :=
  (false, Metrics (mkSample n 1.5%float (n * 1000))).

(** A stand-in for [zipfile] and [tarfile] on examples: one content is an
    archive of two files, every other content is not an archive. *)
Definition demo_unzip (raw : bytes) : option (list (string * bytes)) :=
  if String.eqb (String.string_of_list_byte raw) "archive"
  then Some [("ffmpeg", encode "new binary"); ("ffprobe", encode "new probe")]
  else None.

(** A previous installation, and next to it a bundle that is an archive
    and one that is not. *)
Definition second_install : World :=
  mkWorld (<["/ffmpeg" := Dir]>
             (<["/ffmpeg/bundle.zip" := File (encode "archive")]>
                (<["/ffmpeg/broken.zip" := File (encode "noise")]>
                   (<["/ffmpeg/ffmpeg_files" := Dir]>
                      (<["/ffmpeg/ffmpeg_files/ffmpeg" := File (encode "binary")]>
                         (<["/ffmpeg/ffmpeg_files/bundle.zip" := File (encode "archive")]>
                            ∅))))))
          (fun _ => HttpFault) [].

(** What the survey server offers: the bundle and two clips. *)
Definition survey_server (url : string) : http :=
  if String.eqb url "http://host/get/bundle.zip" then HttpReply 200 (encode "archive")
  else if String.eqb url "http://host/media/clip.mkv" then HttpReply 200 (encode "new")
  else if String.eqb url "http://host/media/tune.mkv" then HttpReply 200 (encode "tune")
  else HttpReply 404 (encode "gone").


Definition survey_clips : list test_file :=
  [mkTestFile "clips/clip" "http://host/media/clip.mkv" [("sha256", "new")];
   mkTestFile "clips/tune" "http://host/media/tune.mkv" [("md5", "0f0f")]].

(** A machine on which nothing was downloaded yet. *)
Definition fresh_machine : World :=
  mkWorld (<["/ffmpeg" := Dir]> (<["/videos" := Dir]> ∅)) survey_server [].


(** * Properties *)

(** ** Running the monad *)

Lemma bind_ret {A B} (m : M A) (k : A -> M B) (w w' : World) (a : A) :
  m w = (Ret a, w') -> (m ≫= k) w = k a w'.
Proof. intros H. unfold mbind, M_bind, bind. now rewrite H. Qed.

Lemma bind_raise {A B} (m : M A) (k : A -> M B) (w w' : World) (e : exn) :
  m w = (Raise e, w') -> (m ≫= k) w = (Raise e, w').
Proof. intros H. unfold mbind, M_bind, bind. now rewrite H. Qed.

(** One step of a computation that is known to return: name the value and
    the world the first action leaves, and drop the case where it raises. *)
Ltac step H E :=
  match type of H with
  | (?m ≫= ?k) ?w = (Ret _, _) =>
      destruct (m w) as [[?|?] ?] eqn:E;
      [ rewrite (bind_ret m k _ _ _ E) in H
      | rewrite (bind_raise m k _ _ _ E) in H; discriminate H ]
  end.

(** ** Hash negotiator *)

Lemma contains_supported (k : string) :
  contains supported_hashes k = String.eqb k "sha256".
Proof. unfold contains, supported_hashes. simpl. now rewrite orb_false_r. Qed.

Lemma first_supported_sha256 (ks : list string) :
  first_supported ks = if contains ks "sha256" then Some "sha256" else None.
Proof.
  induction ks as [|k ks IH]; [reflexivity|].
  cbn [first_supported]. rewrite contains_supported.
  change (contains (k :: ks) "sha256")
    with (String.eqb "sha256" k || contains ks "sha256").
  rewrite (String.eqb_sym "sha256" k).
  destruct (String.eqb k "sha256") eqn:E; simpl.
  - apply String.eqb_eq in E. now subst.
  - exact IH.
Qed.

Lemma match_hash_value (d : dict) (output : bool) (w : World) :
  (match_hash d output w).1 =
  Ret (match d with
       | [] => (None, None)
       | _ => match first_supported (keys d) with
              | Some h => (Some h, dict_get d h)
              | None => (None, None)
              end
       end).
Proof.
  unfold match_hash. destruct d as [|kv d]; [now destruct output|].
  destruct (first_supported _); now destruct output.
Qed.

(** Only the terminal is touched by the negotiation. *)
Lemma match_hash_world (d : dict) (output : bool) (w : World) :
  ∃ notes, (match_hash d output w).2 = mkWorld (fs w) (remote w) (trace w ++ notes)
           ∧ List.filter is_get notes = [] ∧ List.filter is_remove notes = [].
Proof.
  unfold match_hash. destruct d as [|kv d].
  - destruct output; [eexists [_]|exists []]; simpl; rewrite ?app_nil_r;
      destruct w; auto.
  - destruct (first_supported _); (destruct output; [eexists [_]|exists []]);
      simpl; rewrite ?app_nil_r; destruct w; auto.
Qed.

Lemma match_hash_negotiated (d : dict) (output : bool) (w : World) :
  (match_hash d output w).1 = Ret (negotiate_by_allow_list supported_hashes d).
Proof.
  rewrite match_hash_value. destruct d as [|kv d]; [reflexivity|].
  rewrite first_supported_sha256. unfold supported_hashes.
  cbn [negotiate_by_allow_list].
  now destruct (contains (keys (kv :: d)) "sha256").
Qed.

Lemma contains_elem_of (ks : list string) (k : string) :
  contains ks k = true <-> k ∈ ks.
Proof.
  unfold contains. rewrite existsb_exists. split.
  - intros (x & Hx & E). apply String.eqb_eq in E. subst.
    now apply list_elem_of_In.
  - intros H. exists k. split; [now apply list_elem_of_In|].
    apply String.eqb_refl.
Qed.

Lemma dict_get_key (d : dict) (k : string) :
  contains (keys d) k = true -> ∃ v, dict_get d k = Some v.
Proof.
  induction d as [|[k' v'] d IH]; [discriminate|].
  cbn [keys map fst dict_get]. unfold contains. cbn [existsb].
  rewrite (String.eqb_sym k k'). destruct (String.eqb k' k); [eauto|].
  exact IH.
Qed.

(** What a negotiation can yield: sha256 with a digest, or nothing. *)
Lemma negotiated_cases (d : dict) (alg src : option string) :
  negotiate_by_allow_list supported_hashes d = (alg, src) ->
  (alg = Some "sha256" ∧ ∃ v, src = Some v) ∨ (alg = None ∧ src = None).
Proof.
  unfold supported_hashes. cbn [negotiate_by_allow_list].
  destruct (contains (keys d) "sha256") eqn:E; intros [= <- <-]; [left|right; auto].
  split; [reflexivity|]. now apply dict_get_key.
Qed.

Lemma dict_get_some_key (d : dict) (k v : string) :
  dict_get d k = Some v -> contains (keys d) k = true.
Proof.
  induction d as [|[k' v'] d IH]; [discriminate|].
  cbn [keys map fst dict_get]. unfold contains. cbn [existsb].
  rewrite (String.eqb_sym k k'). destruct (String.eqb k' k); [reflexivity|].
  exact IH.
Qed.

(** In a dict (no key twice) a lookup does not depend on the order of the
    items. *)
Lemma dict_get_permutation (d d' : dict) (k : string) :
  d ≡ₚ d' -> NoDup (keys d) -> dict_get d k = dict_get d' k.
Proof.
  induction 1 as [|[k1 v1] d d' Hp IH|[k1 v1] [k2 v2] d|d d1 d2 Hp1 IH1 Hp2 IH2];
    intros Hnd.
  - reflexivity.
  - cbn [dict_get]. destruct (String.eqb k1 k); [reflexivity|].
    apply IH. cbn in Hnd. now apply NoDup_cons_1_2 in Hnd.
  - cbn [dict_get]. destruct (String.eqb k2 k) eqn:E2, (String.eqb k1 k) eqn:E1;
      try reflexivity.
    apply String.eqb_eq in E1, E2. subst. cbn in Hnd.
    apply NoDup_cons_1_1 in Hnd. exfalso. apply Hnd. apply list_elem_of_here.
  - rewrite IH1 by exact Hnd. apply IH2.
    unfold keys in *. now rewrite <- (Permutation_map fst Hp1).
Qed.

Lemma contains_permutation (ks ks' : list string) (k : string) :
  ks ≡ₚ ks' -> contains ks k = contains ks' k.
Proof.
  intros Hp. destruct (contains ks' k) eqn:E.
  - apply contains_elem_of. apply contains_elem_of in E. now rewrite Hp.
  - destruct (contains ks k) eqn:E'; [|reflexivity].
    apply contains_elem_of in E'. rewrite Hp in E'. apply contains_elem_of in E'.
    congruence.
Qed.

(** C6: for every hash descriptor [match_hash] returns what the walk over
    the allow-list returns, the pair of the first allow-listed algorithm the
    descriptor offers and its digest; the order of the descriptor's items
    plays no part in it; it returns [(None, None)] on the empty descriptor
    and on a descriptor that offers no supported algorithm. *)
Theorem match_hash_first_supported (hash_dict : dict) (output : bool) (w : World) :
  (match_hash hash_dict output w).1
    = Ret (negotiate_by_allow_list supported_hashes hash_dict)
  ∧ (∀ digest, dict_get hash_dict "sha256" = Some digest ->
       (match_hash hash_dict output w).1 = Ret (Some "sha256", Some digest))
  ∧ (∀ reordered, hash_dict ≡ₚ reordered -> NoDup (keys hash_dict) ->
       (match_hash reordered output w).1 = (match_hash hash_dict output w).1)
  ∧ (hash_dict = [] -> (match_hash hash_dict output w).1 = Ret (None, None))
  ∧ (hash_dict ≠ [] -> (∀ k, k ∈ keys hash_dict -> k ∉ supported_hashes) ->
       (match_hash hash_dict output w).1 = Ret (None, None)).
Proof.
  assert (Hneg : ∀ d, negotiate_by_allow_list supported_hashes d
                      = if contains (keys d) "sha256"
                        then (Some "sha256", dict_get d "sha256")
                        else (None, None)) by reflexivity.
  repeat apply conj.
  - apply match_hash_negotiated.
  - intros digest Hd.
    now rewrite match_hash_negotiated, Hneg, (dict_get_some_key _ _ _ Hd), Hd.
  - intros reordered Hp Hnd. rewrite !match_hash_negotiated, !Hneg.
    rewrite <- (dict_get_permutation _ _ "sha256" Hp Hnd).
    rewrite <- (contains_permutation (keys hash_dict) (keys reordered)); [reflexivity|].
    unfold keys. now apply Permutation_map.
  - intros ->. now rewrite match_hash_negotiated.
  - intros _ Hno. rewrite match_hash_negotiated, Hneg.
    destruct (contains (keys hash_dict) "sha256") eqn:E; [|reflexivity].
    apply contains_elem_of in E. exfalso. apply (Hno _ E). apply list_elem_of_here.
Qed.

(** ** Artifact acquirer *)

Lemma blocks_concat (size fuel : nat) (c acc : bytes) :
  (0 < size)%nat -> (length c <= fuel)%nat ->
  foldl (fun fed byte_block => (fed ++ byte_block)%list) acc (blocks fuel size c)
  = (acc ++ c)%list.
Proof.
  intros Hs. revert c acc. induction fuel as [|fuel IH]; intros c acc Hlen.
  - destruct c; [simpl; now rewrite app_nil_r | simpl in Hlen; lia].
  - destruct c as [|x c]; [simpl; now rewrite app_nil_r|].
    cbn [blocks foldl]. rewrite IH.
    + now rewrite <- app_assoc, take_drop.
    + rewrite length_drop. simpl in *. lia.
Qed.

(** Reading a file in blocks of 4K feeds the digest the whole content. *)
Lemma read_blocks_concat (c : bytes) :
  foldl (fun fed byte_block => (fed ++ byte_block)%list) [] (read_blocks c) = c.
Proof. unfold read_blocks. rewrite blocks_concat; [reflexivity | lia | lia]. Qed.

Lemma fetches_snoc (t : list event) (ev : event) :
  fetches (t ++ [ev]) = (fetches t + (if is_get ev then 1 else 0))%nat.
Proof.
  unfold fetches. rewrite List.filter_app, length_app. simpl.
  now destruct (is_get ev).
Qed.

Lemma deletions_snoc (t : list event) (ev : event) :
  deletions (t ++ [ev]) = (deletions t + (if is_remove ev then 1 else 0))%nat.
Proof.
  unfold deletions. rewrite List.filter_app, length_app. simpl.
  now destruct (is_remove ev).
Qed.

Lemma fetches_log (w : World) (ev : event) :
  fetches (trace (log ev w)) = (fetches (trace w) + (if is_get ev then 1 else 0))%nat.
Proof. apply fetches_snoc. Qed.

Lemma deletions_log (w : World) (ev : event) :
  deletions (trace (log ev w))
  = (deletions (trace w) + (if is_remove ev then 1 else 0))%nat.
Proof. apply deletions_snoc. Qed.

(** Rewrites the effect counts of a world built by the primitives. *)
Ltac count_effects :=
  cbn [fst snd trace set_fs log fs remote] in *;
  rewrite ?fetches_snoc, ?deletions_snoc;
  cbn [is_get is_remove]; rewrite ?Nat.add_0_r.

Lemma quiet_refl (w : World) : quiet w w.
Proof. repeat apply conj; auto. Qed.

Lemma quiet_trans (w1 w2 w3 : World) : quiet w1 w2 -> quiet w2 w3 -> quiet w1 w3.
Proof.
  intros (R1 & F1 & D1 & A1 & S1) (R2 & F2 & D2 & A2 & S2).
  repeat apply conj; try congruence. auto.
Qed.

Lemma quiet_echo (b : bool) (message : string) (nl : bool) (w w' : World) (u : unit) :
  when b (echo message nl) w = (Ret u, w') -> quiet w w'.
Proof.
  unfold when, echo, ret. destruct b; intros H; simplify_eq; [|apply quiet_refl].
  repeat apply conj; auto.
  - now rewrite fetches_log.
  - now rewrite deletions_log.
Qed.

Lemma quiet_makedirs (b : bool) (p : string) (w w' : World) (u : unit) :
  when b (os_makedirs p false) w = (Ret u, w') -> quiet w w'.
Proof.
  unfold when, ret. destruct b; [|intros H; simplify_eq; apply quiet_refl].
  unfold os_makedirs. destruct (String.eqb p ""); [discriminate|].
  destruct (fs w !! p) as [[c|]|] eqn:E; try discriminate.
  intros H. simplify_eq. repeat apply conj; [reflexivity|..].
  - now rewrite fetches_log.
  - now rewrite deletions_log.
  - intros q. unfold file_at. cbn. destruct (decide (p = q)) as [->|Hne].
    + now rewrite lookup_insert_eq, E.
    + now rewrite lookup_insert_ne.
  - intros q Hq. cbn. destruct (decide (p = q)) as [->|Hne].
    + rewrite lookup_insert_eq. eauto.
    + now rewrite lookup_insert_ne.
Qed.

Lemma quiet_match_hash (d : dict) (output : bool) (w : World) :
  quiet w (match_hash d output w).2.
Proof.
  destruct (match_hash_world d output w) as (notes & -> & Hg & Hr).
  unfold quiet, fetches, deletions, file_at. cbn.
  rewrite !List.filter_app, Hg, Hr, !app_nil_r. auto.
Qed.

(** *** How many files a computation deletes *)

Lemma deletes_weaken {A} (n n' : nat) (m : M A) :
  (n <= n')%nat -> deletes_at_most n m -> deletes_at_most n' m.
Proof. intros Hle H w. specialize (H w). lia. Qed.

Lemma deletes_ret {A} (a : A) : deletes_at_most 0 (mret a : M A).
Proof. intros w. cbn. lia. Qed.

Lemma deletes_raise {A} (e : exn) : deletes_at_most 0 (raise e : M A).
Proof. intros w. cbn. lia. Qed.

Lemma deletes_bind {A B} (n k : nat) (m : M A) (f : A -> M B) :
  deletes_at_most n m -> (∀ a, deletes_at_most k (f a)) ->
  deletes_at_most (n + k) (m ≫= f).
Proof.
  intros Hm Hf w. unfold mbind, M_bind, bind. specialize (Hm w).
  destruct (m w) as [[a|e] w1]; cbn in *; [|lia].
  specialize (Hf a w1). lia.
Qed.

Lemma deletes_try {A} (n k : nat) (body handler : M A) :
  deletes_at_most n body -> deletes_at_most k handler ->
  deletes_at_most (n + k) (try_except body handler).
Proof.
  intros Hb Hh w. unfold try_except. specialize (Hb w).
  destruct (body w) as [[a|e] w1]; cbn in *; [lia|].
  specialize (Hh w1). lia.
Qed.

Lemma deletes_when (n : nat) (b : bool) (m : M unit) :
  deletes_at_most n m -> deletes_at_most n (when b m).
Proof. intros H. destruct b; [exact H|]. intros w. cbn. lia. Qed.

Lemma deletes_echo (message : string) (nl : bool) :
  deletes_at_most 0 (echo message nl).
Proof. intros w. unfold echo. count_effects. lia. Qed.

Lemma deletes_path_exists (p : string) : deletes_at_most 0 (path_exists p).
Proof. intros w. cbn. lia. Qed.

Lemma deletes_read_file (p : string) : deletes_at_most 0 (read_file p).
Proof. intros w. unfold read_file. destruct (fs w !! p) as [[c|]|]; cbn; lia. Qed.

Lemma deletes_write_file (p : string) (c : bytes) : deletes_at_most 0 (write_file p c).
Proof.
  intros w. unfold write_file.
  destruct (fs w !! p) as [[c'|]|]; count_effects; lia.
Qed.

Lemma deletes_os_remove (p : string) : deletes_at_most 1 (os_remove p).
Proof.
  intros w. unfold os_remove.
  destruct (fs w !! p) as [[c'|]|]; count_effects; lia.
Qed.

Lemma deletes_os_makedirs (p : string) (exist_ok : bool) :
  deletes_at_most 0 (os_makedirs p exist_ok).
Proof.
  intros w. unfold os_makedirs. destruct (String.eqb p ""); [cbn; lia|].
  destruct (fs w !! p) as [[c'|]|]; try destruct exist_ok; count_effects; lia.
Qed.

Lemma deletes_reqGet (url : string) : deletes_at_most 0 (reqGet url).
Proof.
  intros w. unfold reqGet. destruct (remote w url); count_effects; lia.
Qed.

Lemma deletes_match_hash (d : dict) (output : bool) :
  deletes_at_most 0 (match_hash d output).
Proof.
  intros w. destruct (quiet_match_hash d output w) as (_ & _ & D & _). lia.
Qed.

Section AcquirerFacts.

Variable sha256 : bytes -> string.
Variable realpath : string -> string.

Lemma calculate_sha256_run (p : string) (w : World) :
  calculate_sha256 sha256 p w =
  match fs w !! p with
  | Some (File c) => (Ret (sha256 c), w)
  | Some Dir => (Raise IsADirectoryError, w)
  | None => (Raise FileNotFoundError, w)
  end.
Proof.
  unfold calculate_sha256, mbind, M_bind, bind, read_file.
  destruct (fs w !! p) as [[c|]|]; try reflexivity.
  unfold mret, M_ret, ret. now rewrite read_blocks_concat.
Qed.

Lemma check_verifies (source_hash : option string) (c : bytes) :
  py_eq (Some (sha256 c)) source_hash || is_none source_hash = true
  <-> verifies sha256 source_hash c.
Proof.
  unfold verifies, py_eq. destruct source_hash as [d|]; cbn [is_none].
  - rewrite orb_false_r, bool_decide_eq_true. split; [auto|].
    intros [H|H]; congruence.
  - rewrite orb_true_r. tauto.
Qed.

Lemma try_download_run (url fp : string) (notify : bool) (w : World) :
  try_download url fp notify w =
  match remote w url with
  | HttpFault => (Ret (Some (false, PStr "Unknown Error!")), log (EvGet url) w)
  | HttpReply status_code content =>
      if Z.eqb status_code 200 then
        match fs w !! fp with
        | Some Dir => (Ret (Some (false, PStr "Unknown Error!")), log (EvGet url) w)
        | _ => (Ret None,
                (when notify (echo " success!" true)
                   (log (EvWrite fp) (set_fs (<[fp := File content]> (fs w))
                                             (log (EvGet url) w)))).2)
        end
      else (Ret (Some (false, PInt status_code)), log (EvGet url) w)
  end.
Proof.
  unfold try_download, try_except, mbind, M_bind, bind, reqGet.
  destruct (remote w url) as [|status_code content]; [reflexivity|].
  destruct (Z.eqb status_code 200); [|reflexivity].
  unfold write_file. cbn [fs log set_fs].
  destruct (fs w !! fp) as [[c|]|]; try reflexivity; now destruct notify.
Qed.

Lemma fetch_source_outcome (target url fp : string) (src : option string)
    (notify : bool) (w w' : World) (r : bool * value) :
  fetch_source sha256 target url fp src notify w = (Ret r, w') ->
  file_at w fp = None ->
  remote w' = remote w
  ∧ fetches (trace w') = (fetches (trace w) + 1)%nat
  ∧ (deletions (trace w') <= deletions (trace w) + 1)%nat
  ∧ (r.1 = true -> r = (true, PStr fp)
       ∧ deletions (trace w') = deletions (trace w)
       ∧ ∃ c, file_at w' fp = Some c ∧ verifies sha256 src c
              ∧ remote w url = HttpReply 200 c)
  ∧ (r.1 = false -> file_at w' fp = None).
Proof.
  intros H Hfp. unfold fetch_source in H.
  step H E1. unfold path_exists in E1. simplify_eq.
  step H E2. apply quiet_makedirs in E2.
  step H E3. apply quiet_echo in E3.
  pose proof (quiet_trans _ _ _ E2 E3) as (Rq & Fq & Dq & Aq & Sq).
  clear E2 E3.
  step H E4. rewrite try_download_run in E4.
  assert (Hfail : ∀ v, a1 = Some (false, v) -> w2 = log (EvGet url) w1 ->
            remote w' = remote w0
            ∧ fetches (trace w') = (fetches (trace w0) + 1)%nat
            ∧ (deletions (trace w') <= deletions (trace w0) + 1)%nat
            ∧ (r.1 = true -> r = (true, PStr fp)
                 ∧ deletions (trace w') = deletions (trace w0)
                 ∧ ∃ c, file_at w' fp = Some c ∧ verifies sha256 src c
                        ∧ remote w0 url = HttpReply 200 c)
            ∧ (r.1 = false -> file_at w' fp = None)).
  { intros v -> ->. unfold mret, M_ret, ret in H. simplify_eq.
    repeat apply conj.
    - exact Rq.
    - count_effects. lia.
    - count_effects. lia.
    - discriminate.
    - intros _. change (file_at w1 fp = None). now rewrite Aq. }
  destruct (remote w1 url) as [|status_code content] eqn:Er.
  { simplify_eq. eapply Hfail; eauto. }
  destruct (Z.eqb status_code 200) eqn:Es; [|simplify_eq; eapply Hfail; eauto].
  apply Z.eqb_eq in Es. subst status_code.
  assert (Hw : (a1 = Some (false, PStr "Unknown Error!") ∧ w2 = log (EvGet url) w1)
               ∨ (a1 = None ∧ remote w2 = remote w1
                  ∧ fs w2 = <[fp := File content]> (fs w1)
                  ∧ fetches (trace w2) = (fetches (trace w1) + 1)%nat
                  ∧ deletions (trace w2) = deletions (trace w1))).
  { destruct (fs w1 !! fp) as [[c0|]|]; simplify_eq; [right | left; auto | right];
      (destruct notify; unfold when, echo, ret; count_effects;
       repeat apply conj; auto with lia). }
  clear E4. destruct Hw as [[-> ->]|(-> & Rw & Fw & Gw & Dw)];
    [eapply Hfail; eauto|].
  clear Hfail. step H E5. rewrite calculate_sha256_run, Fw, lookup_insert_eq in E5.
  simplify_eq.
  destruct (py_eq (Some (sha256 content)) src || is_none src) eqn:Ev.
  - unfold mret, M_ret, ret in H. simplify_eq. repeat apply conj.
    + congruence.
    + lia.
    + lia.
    + intros _. repeat apply conj; [reflexivity | lia |].
      exists content. repeat apply conj.
      * unfold file_at. now rewrite Fw, lookup_insert_eq.
      * now apply check_verifies.
      * now rewrite <- Rq.
    + discriminate.
  - step H E6. unfold os_remove in E6. rewrite Fw, lookup_insert_eq in E6.
    unfold mret, M_ret, ret in H. simplify_eq. repeat apply conj.
    + cbn. congruence.
    + count_effects. lia.
    + count_effects. lia.
    + discriminate.
    + intros _. unfold file_at. cbn. now rewrite lookup_delete_eq.
Qed.

Lemma match_hash_run (d : dict) (output : bool) (w : World) :
  ∃ w1, match_hash d output w = (Ret (negotiate_by_allow_list supported_hashes d), w1)
        ∧ quiet w w1 ∧ fs w1 = fs w.
Proof.
  exists (match_hash d output w).2. split; [|split].
  - rewrite <- match_hash_negotiated with (output := output) (w := w).
    now destruct (match_hash d output w).
  - apply quiet_match_hash.
  - destruct (match_hash_world d output w) as (notes & -> & _). reflexivity.
Qed.

Lemma path_exists_run (p : string) (w : World) :
  path_exists p w = (Ret (bool_decide (is_Some (fs w !! p))), w).
Proof. reflexivity. Qed.

Lemma cached_valid_fs (w1 w2 : World) (fp : string) (src : option string) :
  fs w1 = fs w2 -> cached_valid sha256 w1 fp src -> cached_valid sha256 w2 fp src.
Proof. unfold cached_valid, file_at. now intros ->. Qed.

Lemma obtainSource_outcome (target url : string) (hd : dict) (notify : bool)
    (alg src : option string) (w w' : World) (r : bool * value) :
  let fp := artifact_path realpath target url in
  obtainSource sha256 realpath target url hd notify w = (Ret r, w') ->
  negotiate_by_allow_list supported_hashes hd = (alg, src) ->
  remote w' = remote w
  ∧ (deletions (trace w') <= deletions (trace w) + 2)%nat
  ∧ (cached_valid sha256 w fp src ->
       r = (true, PStr fp) ∧ fs w' = fs w
       ∧ fetches (trace w') = fetches (trace w)
       ∧ deletions (trace w') = deletions (trace w))
  ∧ (¬ cached_valid sha256 w fp src ->
       fetches (trace w') = (fetches (trace w) + 1)%nat)
  ∧ (r.1 = true -> r = (true, PStr fp) ∧ cached_valid sha256 w' fp src
                   ∧ (deletions (trace w') <= deletions (trace w) + 1)%nat)
  ∧ (r.1 = false -> file_at w' fp = None).
Proof.
  intros fp H Hneg. unfold obtainSource in H. fold (artifact_path realpath target url) in H.
  fold fp in H.
  destruct (match_hash_run hd notify w) as (w1 & E0 & Hq & Hfs).
  rewrite (bind_ret _ _ _ _ _ E0), Hneg in H.
  destruct Hq as (Rq & Fq & Dq & Aq & Sq). clear E0 Aq Sq.
  rewrite <- Rq, <- Fq, <- Dq, <- Hfs.
  assert (Hcv : cached_valid sha256 w fp src -> cached_valid sha256 w1 fp src)
    by (apply cached_valid_fs; congruence).
  assert (Hcv' : cached_valid sha256 w1 fp src -> cached_valid sha256 w fp src)
    by (apply cached_valid_fs; congruence).
  enough (remote w' = remote w1
    ∧ (deletions (trace w') <= deletions (trace w1) + 2)%nat
    ∧ (cached_valid sha256 w1 fp src ->
         r = (true, PStr fp) ∧ fs w' = fs w1
         ∧ fetches (trace w') = fetches (trace w1)
         ∧ deletions (trace w') = deletions (trace w1))
    ∧ (¬ cached_valid sha256 w1 fp src ->
         fetches (trace w') = (fetches (trace w1) + 1)%nat)
    ∧ (r.1 = true -> r = (true, PStr fp) ∧ cached_valid sha256 w' fp src
                     ∧ (deletions (trace w') <= deletions (trace w1) + 1)%nat)
    ∧ (r.1 = false -> file_at w' fp = None)) by tauto.
  clear Hcv Hcv' Rq Fq Dq Hfs w. rename w1 into w.
  rewrite (bind_ret _ _ _ _ _ (path_exists_run fp w)) in H.
  (* once the download is reached *)
  assert (Hfetch : ∀ wx, fetch_source sha256 (realpath target) url fp src notify wx
                         = (Ret r, w') ->
            file_at wx fp = None -> remote wx = remote w ->
            fetches (trace wx) = fetches (trace w) ->
            (deletions (trace wx) <= deletions (trace w) + 1)%nat ->
            ¬ cached_valid sha256 w fp src ->
            remote w' = remote w
            ∧ (deletions (trace w') <= deletions (trace w) + 2)%nat
            ∧ (cached_valid sha256 w fp src ->
                 r = (true, PStr fp) ∧ fs w' = fs w
                 ∧ fetches (trace w') = fetches (trace w)
                 ∧ deletions (trace w') = deletions (trace w))
            ∧ (¬ cached_valid sha256 w fp src ->
                 fetches (trace w') = (fetches (trace w) + 1)%nat)
            ∧ (r.1 = true -> r = (true, PStr fp) ∧ cached_valid sha256 w' fp src
                   ∧ (deletions (trace w') <= deletions (trace w) + 1)%nat)
            ∧ (r.1 = false -> file_at w' fp = None)).
  { intros wx Hx Hnone Rx Fx Dx Hnot.
    destruct (fetch_source_outcome _ _ _ _ _ _ _ _ Hx Hnone)
      as (R' & F' & D' & Hok & Hko).
    repeat apply conj; [congruence | lia | tauto | intros _; lia | | exact Hko].
    intros Hr. destruct (Hok Hr) as (-> & D'' & c & Hc & Hv & _).
    split; [reflexivity | split; [|lia]].
    split.
    - unfold file_at in Hc. destruct (fs w' !! fp); [eauto | discriminate].
    - destruct Hv as [-> | ->]; [now left | right; eauto]. }
  destruct (bool_decide (is_Some (fs w !! fp))) eqn:Ex.
  2: { apply bool_decide_eq_false in Ex.
       assert (fs w !! fp = None) as Hn
         by (destruct (fs w !! fp); [exfalso; eauto | reflexivity]).
       apply (Hfetch w H); auto with lia.
       - unfold file_at. now rewrite Hn.
       - intros [Hs _]. contradiction. }
  apply bool_decide_eq_true in Ex. step H E2.
  destruct (negotiated_cases _ _ _ Hneg) as [[-> [d ->]] | [-> ->]].
  - unfold py_eq at 1 in E2. rewrite bool_decide_eq_true_2 in E2 by reflexivity.
    step E2 E3. rewrite calculate_sha256_run in E3.
    destruct (fs w !! fp) as [[c|]|] eqn:Ef; simplify_eq.
    unfold mret, M_ret, ret in E2. simplify_eq.
    destruct (py_eq (Some (sha256 c)) (Some d) || is_none (Some d)) eqn:Ev.
    + apply check_verifies in Ev. destruct Ev as [Ev|Ev]; [discriminate|].
      unfold mret, M_ret, ret in H. simplify_eq.
      assert (cached_valid sha256 w' fp (Some (sha256 c))).
      { split; [eauto|]. right. exists c. unfold file_at. now rewrite Ef. }
      repeat apply conj; auto with lia; try tauto; intros Hf; cbn in Hf; discriminate Hf.
    + step H E4. unfold os_remove in E4. rewrite Ef in E4. simplify_eq.
      apply (Hfetch _ H).
      * unfold file_at. cbn. now rewrite lookup_delete_eq.
      * reflexivity.
      * count_effects. lia.
      * count_effects. lia.
      * intros [_ [Hd|(c' & Hc' & Hd)]]; [discriminate|].
        unfold file_at in Hc'. rewrite Ef in Hc'. simplify_eq.
        rewrite (proj2 (check_verifies _ _)) in Ev; [discriminate|].
        now right.
  - unfold py_eq at 1 in E2. rewrite bool_decide_eq_false_2 in E2 by discriminate.
    cbn [is_none] in H. rewrite orb_true_r in H.
    unfold mret, M_ret, ret in E2, H. simplify_eq.
    assert (cached_valid sha256 w' fp None) by (split; auto).
    repeat apply conj; auto with lia; try tauto; intros Hf; cbn in Hf; discriminate Hf.
Qed.

Lemma py_eq_refl (a : option string) : py_eq a a = true.
Proof. now apply bool_decide_eq_true_2. Qed.

(** A valid cached copy is handed back without touching anything but the
    terminal. *)
Lemma obtainSource_hit (target url : string) (hd : dict) (notify : bool)
    (alg src : option string) (w : World) :
  let fp := artifact_path realpath target url in
  negotiate_by_allow_list supported_hashes hd = (alg, src) ->
  cached_valid sha256 w fp src ->
  ∃ w', obtainSource sha256 realpath target url hd notify w
        = (Ret (true, PStr fp), w')
        ∧ quiet w w' ∧ fs w' = fs w.
Proof.
  intros fp Hneg [Hex Hv]. unfold obtainSource.
  fold (artifact_path realpath target url). fold fp.
  destruct (match_hash_run hd notify w) as (w1 & E0 & Hq & Hfs).
  rewrite (bind_ret _ _ _ _ _ E0), Hneg.
  rewrite (bind_ret _ _ _ _ _ (path_exists_run fp w1)).
  exists w1. split; [|auto].
  rewrite Hfs, bool_decide_eq_true_2 by exact Hex.
  destruct (negotiated_cases _ _ _ Hneg) as [[-> [d ->]] | [-> ->]].
  - destruct Hv as [Hv|(c & Hc & Hd)]; [discriminate|].
    unfold file_at in Hc. rewrite <- Hfs in Hc.
    destruct (fs w1 !! fp) as [[c'|]|] eqn:Ef; simplify_eq.
    rewrite py_eq_refl.
    erewrite bind_ret.
    2: { erewrite bind_ret; [reflexivity|]. rewrite calculate_sha256_run, Ef.
         reflexivity. }
    rewrite (proj2 (check_verifies _ _)) by now right. reflexivity.
  - change (py_eq None (Some "sha256")) with false.
    erewrite bind_ret by reflexivity.
    cbn [is_none]. rewrite orb_true_r. reflexivity.
Qed.





Lemma deletes_calculate_sha256 (p : string) :
  deletes_at_most 0 (calculate_sha256 sha256 p).
Proof.
  unfold calculate_sha256. apply (deletes_bind 0 0); [apply deletes_read_file|].
  intros c. apply deletes_ret.
Qed.

Lemma deletes_try_download (url fp : string) (notify : bool) :
  deletes_at_most 0 (try_download url fp notify).
Proof.
  unfold try_download. apply (deletes_try 0 0); [|apply deletes_ret].
  apply (deletes_bind 0 0); [apply deletes_reqGet|]. intros [status_code content].
  destruct (Z.eqb status_code 200); [|apply deletes_ret].
  apply (deletes_bind 0 0); [apply deletes_write_file|]. intros _.
  apply (deletes_bind 0 0); [apply deletes_when, deletes_echo|]. intros _.
  apply deletes_ret.
Qed.

Lemma deletes_fetch_source (target url fp : string) (src : option string)
    (notify : bool) :
  deletes_at_most 1 (fetch_source sha256 target url fp src notify).
Proof.
  unfold fetch_source.
  apply (deletes_bind 0 1); [apply deletes_path_exists|]. intros present.
  apply (deletes_bind 0 1); [apply deletes_when, deletes_os_makedirs|]. intros _.
  apply (deletes_bind 0 1); [apply deletes_when, deletes_echo|]. intros _.
  apply (deletes_bind 0 1); [apply deletes_try_download|]. intros [failure|].
  { apply (deletes_weaken 0); [lia | apply deletes_ret]. }
  apply (deletes_bind 0 1); [apply deletes_calculate_sha256|]. intros checksum.
  destruct (py_eq (Some checksum) src || is_none src).
  - apply (deletes_weaken 0); [lia | apply deletes_ret].
  - apply (deletes_bind 1 0); [apply deletes_os_remove|]. intros _.
    apply deletes_ret.
Qed.

Lemma deletes_obtainSource (target url : string) (hd : dict) (notify : bool) :
  deletes_at_most 2 (obtainSource sha256 realpath target url hd notify).
Proof.
  unfold obtainSource.
  apply (deletes_bind 0 2); [apply deletes_match_hash|]. intros [alg src].
  apply (deletes_bind 0 2); [apply deletes_path_exists|]. intros present.
  destruct present.
  2: { apply (deletes_weaken 1); [lia | apply deletes_fetch_source]. }
  apply (deletes_bind 0 2).
  { destruct (py_eq alg (Some "sha256")); [|apply deletes_ret].
    apply (deletes_bind 0 0); [apply deletes_calculate_sha256|].
    intros c. apply deletes_ret. }
  intros existing. destruct (py_eq existing src || is_none src).
  - apply (deletes_weaken 0); [lia | apply deletes_ret].
  - apply (deletes_bind 1 1); [apply deletes_os_remove|]. intros _.
    apply deletes_fetch_source.
Qed.

(** C8 (as the code has it): a call deletes at most two files, whether it
    returns or raises: the stale copy, and a download whose checksum does
    not match; a call that returns success deletes at most one, and a call
    served from the cache deletes none. *)
Theorem obtainSource_deletes_at_most_two (target url : string) (hd : dict)
    (notify : bool) (w : World) :
  let acquire := obtainSource sha256 realpath target url hd notify in
  (deletions (trace (acquire w).2) <= deletions (trace w) + 2)%nat
  ∧ (∀ r w', acquire w = (Ret r, w') -> r.1 = true ->
       (deletions (trace w') <= deletions (trace w) + 1)%nat)
  ∧ (∀ r w', acquire w = (Ret r, w') ->
       cached_valid sha256 w (artifact_path realpath target url)
                    (negotiate_by_allow_list supported_hashes hd).2 ->
       deletions (trace w') = deletions (trace w)).
Proof.
  intros acquire. split; [apply deletes_obtainSource|].
  destruct (negotiate_by_allow_list supported_hashes hd) as [alg src] eqn:Hneg.
  split; intros r w' H Hr;
    destruct (obtainSource_outcome _ _ _ _ _ _ _ _ _ H Hneg)
      as (_ & _ & Hhit & _ & Hok & _).
  - now destruct (Hok Hr) as (_ & _ & D).
  - now destruct (Hhit Hr) as (_ & _ & _ & D).
Qed.

End AcquirerFacts.


(** C8 fails as stated: with a stale copy in the cache and a server whose
    content does not match either, one call deletes twice.  (The expected
    digest "0000" is not the SHA-256 digest of any content, so the run is
    the same under [hashlib].) *)
Lemma obtainSource_deletes_twice :
  let out := obtainSource demo_digest id "/cache" clip_url [("sha256", "0000")] false
               stale_corrupt in
  out.1 = Ret (false, PStr "Invalid Checksum!")
  ∧ deletions (trace stale_corrupt) = 0%nat
  ∧ deletions (trace out.2) = 2%nat
  ∧ trace out.2 = [EvRemove "/cache/clip.mkv"; EvGet clip_url;
                   EvWrite "/cache/clip.mkv"; EvRemove "/cache/clip.mkv"].
Proof. vm_compute. auto. Qed.

(** ** Archive unpacker *)

Lemma not_below_self (p : string) : below p p = false.
Proof.
  unfold below, startswith. induction p as [|c p IH]; [reflexivity|].
  simpl. destruct (ascii_dec c c); [exact IH|congruence].
Qed.

Section UnpackerFacts.

Variable unzip : bytes -> option (list (string * bytes)).
Variable untar_gz : bytes -> option (list (string * bytes)).



End UnpackerFacts.



(** ** Worker ramp controller *)

Section RampFacts.

Variable workMan : Z -> string -> bool * payload.
Variable ffmpeg_cmd : string.

Lemma ramp_inv_start : ramp_inv workMan ffmpeg_cmd ramp_start.
Proof. repeat apply conj; [reflexivity | reflexivity | intros i s [=]]. Qed.

Lemma ramp_step_cases (st : ramp_state) :
  match stop_reason (workMan (total_workers st) ffmpeg_cmd),
        accepted (workMan (total_workers st) ffmpeg_cmd) with
  | Some reason, _ =>
      ramp_step workMan ffmpeg_cmd st
      = Ret (mkRamp (runs st) (total_workers st) false (last_Speed st)
                    (failure_reason st ++ [reason]))
  | None, Some m =>
      ramp_step workMan ffmpeg_cmd st
      = Ret (mkRamp (runs st ++ [m]) (total_workers st + 1) (run st) (speed m)
                    (failure_reason st))
  | None, None => ramp_step workMan ffmpeg_cmd st = Raise TypeError
  end.
Proof.
  unfold ramp_step, stop_reason, accepted.
  destruct (workMan (total_workers st) ffmpeg_cmd) as [[|] [d|m]]; cbn [fst snd];
    try reflexivity.
  destruct (below_real_time (speed m)); reflexivity.
Qed.

Lemma ramp_step_inv (st st' : ramp_state) :
  ramp_inv workMan ffmpeg_cmd st -> run st = true ->
  ramp_step workMan ffmpeg_cmd st = Ret st' -> ramp_inv workMan ffmpeg_cmd st'.
Proof.
  intros (Hn & Hf & Hr) Hrun Hstep. rewrite Hrun in Hf.
  pose proof (ramp_step_cases st) as Hc. rewrite Hstep in Hc.
  destruct (stop_reason _) as [reason|].
  - injection Hc as ->. unfold ramp_inv.
    cbn [runs total_workers run failure_reason]. rewrite Hf.
    repeat apply conj; eauto.
  - destruct (accepted _) as [m|] eqn:Ea; [|discriminate].
    injection Hc as ->. unfold ramp_inv.
    cbn [runs total_workers run failure_reason]. rewrite Hrun.
    repeat apply conj.
    + rewrite length_app, Hn. cbn. lia.
    + exact Hf.
    + intros i s Hi. apply lookup_app_Some in Hi as [Hi|[Hlen Hi]]; [eauto|].
      apply list_lookup_singleton_Some in Hi as [Hz ->].
      replace (Z.of_nat i + 1) with (total_workers st) by lia. exact Ea.
Qed.

(** A loop that hands a state back hands back one with [run] off. *)
Lemma ramp_loop_inv (fuel : nat) (st st' : ramp_state) :
  ramp_inv workMan ffmpeg_cmd st -> ramp_loop workMan fuel ffmpeg_cmd st = Some (Ret st') ->
  ramp_inv workMan ffmpeg_cmd st' ∧ run st' = false.
Proof.
  revert st. induction fuel as [|fuel IH]; intros st Hinv H; cbn in H;
    destruct (run st) eqn:Hrun; try discriminate;
    try (injection H as <-; now split).
  destruct (ramp_step workMan ffmpeg_cmd st) as [st1|e] eqn:Hstep; [|discriminate].
  eapply IH; [|exact H]. eapply ramp_step_inv; eauto.
Qed.

Lemma ramp_result_cases (st : ramp_state) :
  ramp_result st =
  match last (runs st) with
  | Some final =>
      Ret (true, runs st,
           Some (mkSummary (workers final) (failure_reason st) (speed final)
                           (rss_kb final)))
  | None => Ret (false, runs st, None)
  end.
Proof.
  unfold ramp_result. rewrite last_lookup.
  destruct (runs st) as [|s rs] eqn:E; [reflexivity|].
  replace (pred (length (s :: rs))) with (length (s :: rs) - 1)%nat by (cbn; lia).
  cbn [length Nat.ltb Nat.leb].
  destruct ((s :: rs) !! (S (length rs) - 1)%nat) as [final|] eqn:El; [reflexivity|].
  apply lookup_ge_None in El. cbn in El. lia.
Qed.

(** A returned tuple comes from a final state of the loop. *)
Lemma benchmark_returns (fuel : nat) (r : bool * list sample * option summary) :
  benchmark workMan fuel ffmpeg_cmd = Some (Ret r) ->
  ∃ st, ramp_loop workMan fuel ffmpeg_cmd ramp_start = Some (Ret st)
        ∧ ramp_result st = Ret r
        ∧ ramp_inv workMan ffmpeg_cmd st ∧ run st = false.
Proof.
  unfold benchmark.
  destruct (ramp_loop workMan fuel ffmpeg_cmd ramp_start) as [[st|e]|] eqn:E;
    try discriminate.
  intros [= H]. exists st. repeat split; auto;
    now apply (ramp_loop_inv fuel ramp_start st ramp_inv_start E).
Qed.

(** The ramp ends at the first worker count whose outcome is a stop, after
    exactly that many turns. *)
Lemma ramp_loop_stops (k : nat) (st : ramp_state) (reason : payload) :
  run st = true ->
  (∀ j : nat, (j < k)%nat ->
     is_Some (accepted (workMan (total_workers st + Z.of_nat j) ffmpeg_cmd))
     ∧ stop_reason (workMan (total_workers st + Z.of_nat j) ffmpeg_cmd) = None) ->
  stop_reason (workMan (total_workers st + Z.of_nat k) ffmpeg_cmd) = Some reason ->
  ∃ st', ramp_loop workMan (S k) ffmpeg_cmd st = Some (Ret st')
         ∧ length (runs st') = (length (runs st) + k)%nat
         ∧ failure_reason st' = (failure_reason st ++ [reason])%list.
Proof.
  revert st. induction k as [|k IH]; intros st Hrun Hacc Hstop.
  - rewrite Z.add_0_r in Hstop. pose proof (ramp_step_cases st) as Hc.
    rewrite Hstop in Hc. eexists. cbn [ramp_loop]. rewrite Hrun, Hc.
    cbn [run]. repeat apply conj; [reflexivity | cbn; lia | reflexivity].
  - destruct (Hacc 0%nat ltac:(lia)) as [[m Hm] Hn]. rewrite Z.add_0_r in Hm, Hn.
    pose proof (ramp_step_cases st) as Hc. rewrite Hm, Hn in Hc.
    set (st1 := mkRamp (runs st ++ [m]) (total_workers st + 1) (run st) (speed m)
                       (failure_reason st)) in *.
    destruct (IH st1) as (st' & E & Hlen & Hfr).
    + cbn. exact Hrun.
    + intros j Hj. cbn [st1 total_workers].
      replace (total_workers st + 1 + Z.of_nat j)
        with (total_workers st + Z.of_nat (S j)) by lia.
      apply Hacc. lia.
    + cbn [st1 total_workers].
      replace (total_workers st + 1 + Z.of_nat k)
        with (total_workers st + Z.of_nat (S k)) by lia.
      exact Hstop.
    + exists st'. change (ramp_loop workMan (S (S k)) ffmpeg_cmd st)
        with (if run st then
                match ramp_step workMan ffmpeg_cmd st with
                | Ret st2 => ramp_loop workMan (S k) ffmpeg_cmd st2
                | Raise e => Some (Raise e)
                end
              else Some (Ret st)).
      rewrite Hrun, Hc. split; [exact E|]. cbn in Hlen, Hfr.
      rewrite length_app in Hlen. cbn in Hlen. split; [lia | exact Hfr].
Qed.

(** More turns than needed change nothing. *)
Lemma ramp_loop_more_fuel (fuel extra : nat) (st : ramp_state)
    (r : result ramp_state) :
  ramp_loop workMan fuel ffmpeg_cmd st = Some r ->
  ramp_loop workMan (fuel + extra) ffmpeg_cmd st = Some r.
Proof.
  revert st. induction fuel as [|fuel IH]; intros st H.
  - cbn in H. destruct (run st) eqn:Hrun; [discriminate|].
    destruct extra; cbn; now rewrite Hrun.
  - cbn in H |- *. destruct (run st); [|exact H].
    destruct (ramp_step workMan ffmpeg_cmd st); [now apply IH | exact H].
Qed.

(** A primitive that never degrades keeps the loop running: no number of
    turns reaches the end. *)
Lemma ramp_loop_unbounded (fuel : nat) (st : ramp_state) :
  run st = true ->
  (∀ j : nat,
     is_Some (accepted (workMan (total_workers st + Z.of_nat j) ffmpeg_cmd))
     ∧ stop_reason (workMan (total_workers st + Z.of_nat j) ffmpeg_cmd) = None) ->
  ramp_loop workMan fuel ffmpeg_cmd st = None.
Proof.
  revert st. induction fuel as [|fuel IH]; intros st Hrun Hacc; cbn; rewrite Hrun;
    [reflexivity|].
  destruct (Hacc 0%nat) as [[m Hm] Hn]. rewrite Z.add_0_r in Hm, Hn.
  pose proof (ramp_step_cases st) as Hc. rewrite Hm, Hn in Hc. rewrite Hc.
  apply IH; [exact Hrun|]. intros j. cbn [total_workers].
  replace (total_workers st + 1 + Z.of_nat j)
    with (total_workers st + Z.of_nat (S j)) by lia.
  apply Hacc.
Qed.

(** C3: in a returned result, [valid] is false exactly when the run list
    is empty, and then the summary is the empty dict; when the run list is
    not empty, the summary's maximum of streams, speed and resident memory
    are the fields of its last element. *)
Theorem benchmark_summary_of_last (fuel : nat) (valid : bool) (rs : list sample)
    (res : option summary) :
  benchmark workMan fuel ffmpeg_cmd = Some (Ret (valid, rs, res)) ->
  (valid = false <-> rs = [])
  ∧ (rs = [] -> res = None)
  ∧ (∀ final, last rs = Some final ->
       ∃ s, res = Some s
            ∧ max_streams s = workers final
            ∧ single_worker_speed s = speed final
            ∧ single_worker_rss_kb s = rss_kb final).
Proof.
  intros H. destruct (benchmark_returns _ _ H) as (st & _ & Hres & _).
  rewrite ramp_result_cases in Hres.
  destruct (last (runs st)) as [final|] eqn:El; injection Hres as <- <- <-.
  - split; [|split].
    + split; [intros [=] | intros E; rewrite E in El; discriminate].
    + intros E. rewrite E in El. discriminate.
    + intros final' Hl. rewrite El in Hl. injection Hl as <-.
      eexists. repeat apply conj; reflexivity.
  - apply last_None in El. split; [tauto | split; [reflexivity|]].
    intros final Hl. rewrite El in Hl. discriminate.
Qed.

(** C4: a turn whose outcome is a measurement below real time ends the
    ramp with the reason ["performance"] appended and the run list as it
    was; the error flag is looked at first, so an outcome flagged as an
    error ends the ramp with its own payload whatever that payload is; the
    loop runs no further turn once [run] is off. *)
Theorem ramp_step_performance_stop :
  (∀ st m, workMan (total_workers st) ffmpeg_cmd = (false, Metrics m) ->
           below_real_time (speed m) = true ->
           ramp_step workMan ffmpeg_cmd st
           = Ret (mkRamp (runs st) (total_workers st) false (last_Speed st)
                         (failure_reason st ++ [Detail "performance"])))
  ∧ (∀ st p, workMan (total_workers st) ffmpeg_cmd = (true, p) ->
             ramp_step workMan ffmpeg_cmd st
             = Ret (mkRamp (runs st) (total_workers st) false (last_Speed st)
                           (failure_reason st ++ [p])))
  ∧ (∀ fuel st, run st = false ->
                ramp_loop workMan fuel ffmpeg_cmd st = Some (Ret st))
  ∧ (∀ (k : nat) m,
       (∀ j : nat, (j < k)%nat ->
          is_Some (accepted (workMan (1 + Z.of_nat j) ffmpeg_cmd))
          ∧ stop_reason (workMan (1 + Z.of_nat j) ffmpeg_cmd) = None) ->
       workMan (1 + Z.of_nat k) ffmpeg_cmd = (false, Metrics m) ->
       below_real_time (speed m) = true ->
       ∃ st', ramp_loop workMan (S k) ffmpeg_cmd ramp_start = Some (Ret st')
              ∧ length (runs st') = k
              ∧ failure_reason st' = [Detail "performance"]).
Proof.
  repeat apply conj.
  - intros st m Hw Hs. unfold ramp_step. rewrite Hw. cbn [fst snd]. now rewrite Hs.
  - intros st p Hw. unfold ramp_step. now rewrite Hw.
  - intros fuel st Hrun. destruct fuel; cbn; now rewrite Hrun.
  - intros k m Hacc Hw Hs.
    destruct (ramp_loop_stops k ramp_start (Detail "performance") eq_refl Hacc)
      as (st' & E & Hlen & Hfr).
    + cbn [ramp_start total_workers]. unfold stop_reason. rewrite Hw. cbn [fst snd].
      now rewrite Hs.
    + eauto.
Qed.

(** C2 (as the code has it): the run list of a returned result holds, in
    step order and without gap or repeat, the measurements the primitive
    returned for 1, 2, ..., k workers; their worker counts are 1, 2, ..., k
    provided each measurement names the count it was asked for, which the
    controller neither sets nor checks. *)
Theorem benchmark_runs_in_step_order (fuel : nat) (valid : bool) (rs : list sample)
    (res : option summary) :
  benchmark workMan fuel ffmpeg_cmd = Some (Ret (valid, rs, res)) ->
  (∀ (i : nat) s, rs !! i = Some s ->
     workMan (Z.of_nat i + 1) ffmpeg_cmd = (false, Metrics s)
     ∧ below_real_time (speed s) = false)
  ∧ ((∀ n cmd s, workMan n cmd = (false, Metrics s) -> workers s = n) ->
     workers <$> rs = seqZ 1 (Z.of_nat (length rs))).
Proof.
  intros H. destruct (benchmark_returns _ _ H) as (st & _ & Hres & (_ & _ & Hr) & _).
  rewrite ramp_result_cases in Hres.
  assert (rs = runs st) as -> by (destruct (last (runs st)); now injection Hres).
  clear Hres H.
  assert (Hsteps : ∀ (i : nat) s, runs st !! i = Some s ->
            workMan (Z.of_nat i + 1) ffmpeg_cmd = (false, Metrics s)
            ∧ below_real_time (speed s) = false).
  { intros i s Hi. specialize (Hr i s Hi). unfold accepted in Hr.
    destruct (workMan (Z.of_nat i + 1) ffmpeg_cmd) as [[|] [d|m]];
      cbn [fst snd] in Hr;
      try discriminate.
    destruct (below_real_time (speed m)) eqn:Eb; [discriminate|].
    injection Hr as ->. auto. }
  split; [exact Hsteps|]. intros Hstamp.
  apply list_eq. intros i. rewrite list_lookup_fmap.
  destruct (runs st !! i) as [s|] eqn:Ei; cbn.
  - destruct (Hsteps i s Ei) as [Hw _]. rewrite (Hstamp _ _ _ Hw).
    symmetry. apply lookup_lt_Some in Ei.
    rewrite lookup_seqZ. split; lia.
  - symmetry. apply lookup_ge_None in Ei. apply lookup_seqZ_ge. lia.
Qed.

(** C10 (as the code has it): when the loop ends, the local list of
    failure reasons holds exactly one element; a returned result carries
    that list only when its run list is not empty, and carries no list of
    reasons (an empty dict) when no measurement was accepted. *)
Theorem benchmark_single_failure_reason (fuel : nat)
    (r : bool * list sample * option summary) :
  benchmark workMan fuel ffmpeg_cmd = Some (Ret r) ->
  ∃ st reason,
    ramp_loop workMan fuel ffmpeg_cmd ramp_start = Some (Ret st)
    ∧ failure_reason st = [reason]
    ∧ r.1.2 = runs st
    ∧ (runs st ≠ [] -> reported_reasons r = Some [reason])
    ∧ (runs st = [] -> reported_reasons r = None).
Proof.
  intros H. destruct (benchmark_returns _ _ H) as (st & E & Hres & (_ & Hf & _) & Hrun).
  rewrite Hrun in Hf. destruct Hf as [reason Hf]. exists st, reason.
  rewrite ramp_result_cases in Hres. unfold reported_reasons.
  destruct (last (runs st)) as [final|] eqn:El; injection Hres as <-; cbn.
  - repeat apply conj; [exact E | exact Hf | reflexivity | |].
    + intros _. now rewrite Hf.
    + intros E'. rewrite E' in El. discriminate.
  - apply last_None in El.
    repeat apply conj; [exact E | exact Hf | reflexivity | congruence | reflexivity].
Qed.

End RampFacts.

(** The ramp of the specification's example: three measurements, then a
    fourth below real time. *)
Lemma benchmark_summary_of_last_witness :
  benchmark saturating_worker 4 "ffmpeg -i clip.mkv"
  = Some (Ret (true,
               [mkSample 1 1.5%float 1000; mkSample 2 1.5%float 2000;
                mkSample 3 1.5%float 3000],
               Some (mkSummary 3 [Detail "performance"] 1.5%float 3000)))
  ∧ ∃ s, Some (mkSummary 3 [Detail "performance"] 1.5%float 3000) = Some s
         ∧ max_streams s = 3
         ∧ single_worker_speed s = 1.5%float
         ∧ single_worker_rss_kb s = 3000.
Proof.
  split; [vm_compute; reflexivity|].
  refine (proj2 (proj2 (benchmark_summary_of_last saturating_worker
            "ffmpeg -i clip.mkv" 4 true _ _ _)) (mkSample 3 1.5%float 3000) _).
  - vm_compute. reflexivity.
  - reflexivity.
Defined.

(** C2 fails as stated: the controller records what the primitive hands
    it, so a measurement that names another worker count ends up in the
    run list as it is. *)
Lemma benchmark_keeps_reported_count :
  benchmark misreporting_worker 2 "ffmpeg -i clip.mkv"
  = Some (Ret (true, [mkSample 7 2%float 1000],
               Some (mkSummary 7 [Detail "ffmpeg exited"] 2%float 1000)))
  ∧ ¬ counts_from_one [mkSample 7 2%float 1000].
Proof.
  split; [vm_compute; reflexivity|]. intros [k Hk]. destruct k as [|k].
  - discriminate Hk.
  - rewrite Nat2Z.inj_succ, seqZ_cons in Hk by lia. discriminate Hk.
Qed.

(** With a primitive that names the count it was asked for, the worker
    counts of the example's ramp are 1, 2, 3. *)
Lemma benchmark_runs_in_step_order_witness :
  benchmark saturating_worker 4 "ffmpeg -i clip.mkv"
  = Some (Ret (true,
               [mkSample 1 1.5%float 1000; mkSample 2 1.5%float 2000;
                mkSample 3 1.5%float 3000],
               Some (mkSummary 3 [Detail "performance"] 1.5%float 3000)))
  ∧ workers <$> [mkSample 1 1.5%float 1000; mkSample 2 1.5%float 2000;
                 mkSample 3 1.5%float 3000] = seqZ 1 3.
Proof.
  split; [vm_compute; reflexivity|].
  refine (proj2 (benchmark_runs_in_step_order saturating_worker
            "ffmpeg -i clip.mkv" 4 true _
            (Some (mkSummary 3 [Detail "performance"] 1.5%float 3000)) _) _).
  - vm_compute. reflexivity.
  - intros n cmd s [= <-]. reflexivity.
Defined.

(** C10 fails as stated: when the very first step fails, the result is
    [(False, [], {})] and carries no failure reason at all. *)
Lemma benchmark_drops_first_failure :
  benchmark failing_worker 1 "ffmpeg -i clip.mkv" = Some (Ret (false, [], None))
  ∧ reported_reasons (false, [], None) = None
  ∧ ramp_loop failing_worker 1 "ffmpeg -i clip.mkv" ramp_start
    = Some (Ret (mkRamp [] 1 false (-0.5)%float [Detail "ffmpeg exited"])).
Proof. vm_compute. auto. Qed.

(** The example's ramp ends with one reason in the local list. *)
Lemma benchmark_single_failure_reason_witness :
  ∃ st reason,
    ramp_loop saturating_worker 4 "ffmpeg -i clip.mkv" ramp_start = Some (Ret st)
    ∧ failure_reason st = [reason]
    ∧ length (runs st) = 3%nat.
Proof.
  destruct (benchmark_single_failure_reason saturating_worker "ffmpeg -i clip.mkv" 4
              (true,
               [mkSample 1 1.5%float 1000; mkSample 2 1.5%float 2000;
                mkSample 3 1.5%float 3000],
               Some (mkSummary 3 [Detail "performance"] 1.5%float 3000)))
    as (st & reason & E & Hf & Hr & _).
  - vm_compute. reflexivity.
  - exists st, reason. repeat apply conj; [exact E | exact Hf |].
    rewrite <- Hr. reflexivity.
Defined.

(** ** Report output *)

Lemma head_of_no_slash (p : string) : has_slash p = false -> head_of p = "".
Proof.
  destruct p as [|c r]; [reflexivity|]. cbn [has_slash head_of].
  destruct (Ascii.eqb c slash); [discriminate|]. now intros ->.
Qed.

Lemma dirname_no_slash (p : string) : has_slash p = false -> dirname p = "".
Proof. intros H. unfold dirname. now rewrite (head_of_no_slash p H). Qed.

Section ReportFacts.

Variable Data : Type.
Variable dumps : Data -> string.

(** C9 does not hold of the code: the directory of the path is created
    before the path is looked at, and neither [None] nor the empty string
    has a directory that can be created, so the call raises where the
    document should go to standard output, and the branch that writes to
    standard output is never reached.  A bare file name raises the same
    way.  A path below a directory that exists is written as claimed. *)
Theorem output_json_without_path_raises (data : Data) (w : World) :
  output_json Data dumps data None w = (Raise TypeError, w)
  ∧ output_json Data dumps data (Some "") w = (Raise FileNotFoundError, w)
  ∧ (∀ file_path, truthy file_path = false ->
       ∃ e, output_json Data dumps data file_path w = (Raise e, w))
  ∧ (∀ name, has_slash name = false ->
       output_json Data dumps data (Some name) w = (Raise FileNotFoundError, w))
  ∧ (∀ p, dirname p ≠ "" -> fs w !! dirname p = Some Dir -> fs w !! p ≠ Some Dir ->
       ∃ w', output_json Data dumps data (Some p) w = (Ret tt, w')
             ∧ file_at w' p = Some (encode (dumps data))).
Proof.
  assert (Hbare : ∀ name, has_slash name = false ->
            output_json Data dumps data (Some name) w = (Raise FileNotFoundError, w)).
  { intros name Hn. unfold output_json, os_path_dirname.
    rewrite dirname_no_slash by exact Hn. reflexivity. }
  assert (Hnone : output_json Data dumps data None w = (Raise TypeError, w))
    by reflexivity.
  repeat apply conj; [exact Hnone | now apply Hbare | | exact Hbare |].
  - intros [p|] Hp; [|eauto]. cbn in Hp. apply negb_false_iff, String.eqb_eq in Hp.
    subst p. eexists. now apply Hbare.
  - intros p Hd Hparent Hp. unfold output_json, os_path_dirname.
    unfold mbind, M_bind, bind, mret, M_ret, ret, os_makedirs.
    rewrite (proj2 (String.eqb_neq _ _) Hd), Hparent.
    assert (truthy (Some p) = true) as ->.
    { cbn. apply negb_true_iff, String.eqb_neq. intros ->. now apply Hd. }
    unfold write_file, echo. change (default "" (Some p)) with p.
    destruct (fs w !! p) as [[c|]|] eqn:Ep; try congruence;
      (eexists; split; [reflexivity|]; unfold file_at; cbn;
       now rewrite lookup_insert_eq).
Qed.

End ReportFacts.

(** * Further properties *)

(** ** Effects and frame of a computation *)

Lemma kept_refl (made : string -> Prop) (w : World) (q : string) : kept made w w q.
Proof. now left. Qed.

Lemma kept_trans (made : string -> Prop) (w w1 w2 : World) (q : string) :
  kept made w w1 q -> kept made w1 w2 q -> kept made w w2 q.
Proof.
  intros [E1|(M1 & N1 & D1)] [E2|(M2 & N2 & D2)].
  - left. congruence.
  - right. repeat split; [exact M2 | congruence | exact D2].
  - right. repeat split; [exact M1 | exact N1 | congruence].
  - congruence.
Qed.

Lemma kept_file (made : string -> Prop) (w w' : World) (q : string) :
  kept made w w' q ->
  file_at w' q = file_at w q ∧ (is_Some (fs w !! q) -> is_Some (fs w' !! q)).
Proof.
  unfold file_at. intros [->|(_ & Hn & ->)]; [auto|]. rewrite Hn.
  split; [reflexivity|]. intros [? ?]. discriminate.
Qed.

Lemma behaves_weaken (ok ok' : event -> Prop) (touched touched' made made' : string -> Prop)
    {A} (m : M A) :
  (∀ ev, ok ev -> ok' ev) -> (∀ q, touched q -> touched' q) ->
  (∀ q, made q -> made' q) ->
  behaves ok touched made m -> behaves ok' touched' made' m.
Proof.
  intros Hok Ht Hm H w. destruct (H w) as ((t & E & F) & R & K).
  split; [|split; [exact R|]].
  - exists t. split; [exact E|]. eapply Forall_impl; [exact F | exact Hok].
  - intros q Hq. destruct (K q) as [Hk|(Hmade & Hk)]; [auto | now left|].
    right. auto.
Qed.

Lemma behaves_ret (ok : event -> Prop) (touched made : string -> Prop) {A} (a : A) :
  behaves ok touched made (mret a : M A).
Proof.
  intros w. cbn. split; [|split; [reflexivity|intros; apply kept_refl]].
  exists []. now rewrite app_nil_r.
Qed.

Lemma behaves_raise (ok : event -> Prop) (touched made : string -> Prop) {A} (e : exn) :
  behaves ok touched made (raise e : M A).
Proof.
  intros w. cbn. split; [|split; [reflexivity|intros; apply kept_refl]].
  exists []. now rewrite app_nil_r.
Qed.

Lemma behaves_then (ok : event -> Prop) (touched made : string -> Prop) (w w1 w2 : World) :
  ((∃ t, trace w1 = (trace w ++ t)%list ∧ Forall ok t)
   ∧ remote w1 = remote w
   ∧ ∀ q, ¬ touched q -> kept made w w1 q) ->
  ((∃ t, trace w2 = (trace w1 ++ t)%list ∧ Forall ok t)
   ∧ remote w2 = remote w1
   ∧ ∀ q, ¬ touched q -> kept made w1 w2 q) ->
  (∃ t, trace w2 = (trace w ++ t)%list ∧ Forall ok t)
  ∧ remote w2 = remote w
  ∧ ∀ q, ¬ touched q -> kept made w w2 q.
Proof.
  intros ((t1 & E1 & F1) & R1 & K1) ((t2 & E2 & F2) & R2 & K2).
  split; [|split].
  - exists (t1 ++ t2)%list. rewrite E2, E1, <- app_assoc. split; [reflexivity|].
    now apply Forall_app.
  - congruence.
  - intros q Hq. eapply kept_trans; [apply K1 | apply K2]; exact Hq.
Qed.

Lemma behaves_bind (ok : event -> Prop) (touched made : string -> Prop) {A B}
    (m : M A) (f : A -> M B) :
  behaves ok touched made m -> (∀ a, behaves ok touched made (f a)) ->
  behaves ok touched made (m ≫= f).
Proof.
  intros Hm Hf w. unfold mbind, M_bind, bind. specialize (Hm w).
  destruct (m w) as [[a|e] w1]; cbn [snd] in *; [|exact Hm].
  exact (behaves_then ok touched made w w1 _ Hm (Hf a w1)).
Qed.

Lemma behaves_try (ok : event -> Prop) (touched made : string -> Prop) {A}
    (body handler : M A) :
  behaves ok touched made body -> behaves ok touched made handler ->
  behaves ok touched made (try_except body handler).
Proof.
  intros Hb Hh w. unfold try_except. specialize (Hb w).
  destruct (body w) as [[a|e] w1]; cbn [snd] in *; [exact Hb|].
  exact (behaves_then ok touched made w w1 _ Hb (Hh w1)).
Qed.

Lemma behaves_when (ok : event -> Prop) (touched made : string -> Prop) (b : bool)
    (m : M unit) :
  behaves ok touched made m -> behaves ok touched made (when b m).
Proof. intros H. destruct b; [exact H|]. apply (behaves_ret ok touched made tt). Qed.

(** A primitive that at most logs one allowed event and changes the file
    system at touched paths only. *)
Lemma behaves_log (ok : event -> Prop) (touched made : string -> Prop) (w : World)
    (ev : event) (m : gmap string node) :
  ok ev ->
  (∀ q, ¬ touched q -> m !! q = fs w !! q
                       ∨ (made q ∧ fs w !! q = None ∧ m !! q = Some Dir)) ->
  (∃ t, trace (log ev (set_fs m w)) = (trace w ++ t)%list ∧ Forall ok t)
  ∧ remote (log ev (set_fs m w)) = remote w
  ∧ ∀ q, ¬ touched q -> kept made w (log ev (set_fs m w)) q.
Proof.
  intros Hok Hm. split; [|split].
  - exists [ev]. split; [reflexivity|]. now constructor.
  - reflexivity.
  - intros q Hq. exact (Hm q Hq).
Qed.

Lemma behaves_same (ok : event -> Prop) (touched made : string -> Prop) (w : World) :
  (∃ t, trace w = (trace w ++ t)%list ∧ Forall ok t)
  ∧ remote w = remote w
  ∧ ∀ q, ¬ touched q -> kept made w w q.
Proof.
  split; [|split; [reflexivity|intros; apply kept_refl]].
  exists []. now rewrite app_nil_r.
Qed.

Lemma behaves_echo (ok : event -> Prop) (touched made : string -> Prop)
    (message : string) (nl : bool) :
  ok (EvEcho message nl) -> behaves ok touched made (echo message nl).
Proof.
  intros Hok w. unfold echo. cbn [snd].
  replace (log (EvEcho message nl) w) with (log (EvEcho message nl) (set_fs (fs w) w))
    by now destruct w.
  apply behaves_log; auto.
Qed.

Lemma behaves_path_exists (ok : event -> Prop) (touched made : string -> Prop)
    (p : string) :
  behaves ok touched made (path_exists p).
Proof. intros w. apply behaves_same. Qed.

Lemma behaves_read_file (ok : event -> Prop) (touched made : string -> Prop)
    (p : string) :
  behaves ok touched made (read_file p).
Proof.
  intros w. unfold read_file. destruct (fs w !! p) as [[c|]|]; apply behaves_same.
Qed.

Lemma behaves_write_file (ok : event -> Prop) (touched made : string -> Prop)
    (p : string) (c : bytes) :
  ok (EvWrite p) -> touched p -> behaves ok touched made (write_file p c).
Proof.
  intros Hok Ht w. unfold write_file.
  destruct (fs w !! p) as [[c'|]|]; cbn [snd]; try apply behaves_same;
    (apply behaves_log; [exact Hok|]; intros q Hq; left;
     apply lookup_insert_ne; congruence).
Qed.

Lemma behaves_os_remove (ok : event -> Prop) (touched made : string -> Prop)
    (p : string) :
  ok (EvRemove p) -> touched p -> behaves ok touched made (os_remove p).
Proof.
  intros Hok Ht w. unfold os_remove.
  destruct (fs w !! p) as [[c'|]|]; cbn [snd]; try apply behaves_same.
  apply behaves_log; [exact Hok|]. intros q Hq. left.
  apply lookup_delete_ne. congruence.
Qed.

Lemma behaves_os_makedirs (ok : event -> Prop) (touched made : string -> Prop)
    (p : string) (exist_ok : bool) :
  ok (EvMakedirs p) -> made p -> behaves ok touched made (os_makedirs p exist_ok).
Proof.
  intros Hok Hmade w. unfold os_makedirs.
  destruct (String.eqb p ""); [apply behaves_same|].
  destruct (fs w !! p) as [[c'|]|] eqn:E; cbn [snd];
    [apply behaves_same | destruct exist_ok; apply behaves_same |].
  apply behaves_log; [exact Hok|]. intros q Hq.
  destruct (decide (p = q)) as [<-|Hne].
  - right. split; [exact Hmade|]. split; [exact E | apply lookup_insert_eq].
  - left. now apply lookup_insert_ne.
Qed.

Lemma behaves_reqGet (ok : event -> Prop) (touched made : string -> Prop)
    (url : string) :
  ok (EvGet url) -> behaves ok touched made (reqGet url).
Proof.
  intros Hok w. unfold reqGet.
  destruct (remote w url); cbn [snd];
    (replace (log (EvGet url) w) with (log (EvGet url) (set_fs (fs w) w))
       by now destruct w);
    apply behaves_log; auto.
Qed.

Lemma behaves_match_hash (ok : event -> Prop) (touched made : string -> Prop)
    (d : dict) (output : bool) :
  (∀ message nl, ok (EvEcho message nl)) ->
  behaves ok touched made (match_hash d output).
Proof.
  intros Hok. unfold match_hash. destruct d as [|kv d].
  - apply behaves_bind; [apply behaves_when, behaves_echo, Hok|].
    intros _. apply (behaves_ret ok touched made).
  - destruct (first_supported _);
      (apply behaves_bind; [apply behaves_when, behaves_echo, Hok|];
       intros _; apply (behaves_ret ok touched made)).
Qed.

(** *** How many requests a computation sends *)

Lemma fetches_weaken {A} (n n' : nat) (m : M A) :
  (n <= n')%nat -> fetches_at_most n m -> fetches_at_most n' m.
Proof. intros Hle H w. specialize (H w). lia. Qed.

Lemma fetches_ret {A} (a : A) : fetches_at_most 0 (mret a : M A).
Proof. intros w. cbn. lia. Qed.

Lemma fetches_bind {A B} (n k : nat) (m : M A) (f : A -> M B) :
  fetches_at_most n m -> (∀ a, fetches_at_most k (f a)) ->
  fetches_at_most (n + k) (m ≫= f).
Proof.
  intros Hm Hf w. unfold mbind, M_bind, bind. specialize (Hm w).
  destruct (m w) as [[a|e] w1]; cbn in *; [|lia].
  specialize (Hf a w1). lia.
Qed.

Lemma fetches_try {A} (n k : nat) (body handler : M A) :
  fetches_at_most n body -> fetches_at_most k handler ->
  fetches_at_most (n + k) (try_except body handler).
Proof.
  intros Hb Hh w. unfold try_except. specialize (Hb w).
  destruct (body w) as [[a|e] w1]; cbn in *; [lia|].
  specialize (Hh w1). lia.
Qed.

Lemma fetches_when (n : nat) (b : bool) (m : M unit) :
  fetches_at_most n m -> fetches_at_most n (when b m).
Proof. intros H. destruct b; [exact H|]. intros w. cbn. lia. Qed.

(** Everything that is not a request. *)
Lemma fetches_quiet {A} (m : M A) :
  (∀ w, ∃ t, trace (m w).2 = (trace w ++ t)%list ∧ List.filter is_get t = []) ->
  fetches_at_most 0 m.
Proof.
  intros H w. destruct (H w) as (t & -> & Ht). unfold fetches.
  rewrite List.filter_app, Ht, app_nil_r. lia.
Qed.

Lemma fetches_echo (message : string) (nl : bool) : fetches_at_most 0 (echo message nl).
Proof. apply fetches_quiet. intros w. now exists [EvEcho message nl]. Qed.

Lemma fetches_path_exists (p : string) : fetches_at_most 0 (path_exists p).
Proof. intros w. cbn. lia. Qed.

Lemma fetches_read_file (p : string) : fetches_at_most 0 (read_file p).
Proof. intros w. unfold read_file. destruct (fs w !! p) as [[c|]|]; cbn; lia. Qed.

Lemma fetches_write_file (p : string) (c : bytes) : fetches_at_most 0 (write_file p c).
Proof.
  intros w. unfold write_file.
  destruct (fs w !! p) as [[c'|]|]; count_effects; lia.
Qed.

Lemma fetches_os_remove (p : string) : fetches_at_most 0 (os_remove p).
Proof.
  intros w. unfold os_remove.
  destruct (fs w !! p) as [[c'|]|]; count_effects; lia.
Qed.

Lemma fetches_os_makedirs (p : string) (exist_ok : bool) :
  fetches_at_most 0 (os_makedirs p exist_ok).
Proof.
  intros w. unfold os_makedirs. destruct (String.eqb p ""); [cbn; lia|].
  destruct (fs w !! p) as [[c'|]|]; try destruct exist_ok; count_effects; lia.
Qed.

Lemma fetches_reqGet (url : string) : fetches_at_most 1 (reqGet url).
Proof.
  intros w. unfold reqGet. destruct (remote w url); count_effects; lia.
Qed.

Lemma fetches_match_hash (d : dict) (output : bool) :
  fetches_at_most 0 (match_hash d output).
Proof.
  intros w. destruct (quiet_match_hash d output w) as (_ & F & _). lia.
Qed.

(** ** Artifact acquirer: effects, frame and verdict *)

Section AcquirerEffects.

Variable sha256 : bytes -> string.
Variable realpath : string -> string.

Lemma fetches_calculate_sha256 (p : string) :
  fetches_at_most 0 (calculate_sha256 sha256 p).
Proof.
  unfold calculate_sha256. apply (fetches_bind 0 0); [apply fetches_read_file|].
  intros c. apply fetches_ret.
Qed.

Lemma fetches_try_download (url fp : string) (notify : bool) :
  fetches_at_most 1 (try_download url fp notify).
Proof.
  unfold try_download. apply (fetches_try 1 0); [|apply fetches_ret].
  apply (fetches_bind 1 0); [apply fetches_reqGet|]. intros [status_code content].
  destruct (Z.eqb status_code 200); [|apply fetches_ret].
  apply (fetches_bind 0 0); [apply fetches_write_file|]. intros _.
  apply (fetches_bind 0 0); [apply fetches_when, fetches_echo|]. intros _.
  apply fetches_ret.
Qed.

Lemma fetches_fetch_source (target url fp : string) (src : option string)
    (notify : bool) :
  fetches_at_most 1 (fetch_source sha256 target url fp src notify).
Proof.
  unfold fetch_source.
  apply (fetches_bind 0 1); [apply fetches_path_exists|]. intros present.
  apply (fetches_bind 0 1); [apply fetches_when, fetches_os_makedirs|]. intros _.
  apply (fetches_bind 0 1); [apply fetches_when, fetches_echo|]. intros _.
  apply (fetches_bind 1 0); [apply fetches_try_download|]. intros [failure|].
  { apply fetches_ret. }
  apply (fetches_bind 0 0); [apply fetches_calculate_sha256|]. intros checksum.
  destruct (py_eq (Some checksum) src || is_none src); [apply fetches_ret|].
  apply (fetches_bind 0 0); [apply fetches_os_remove|]. intros _. apply fetches_ret.
Qed.

Lemma fetches_obtainSource (target url : string) (hd : dict) (notify : bool) :
  fetches_at_most 1 (obtainSource sha256 realpath target url hd notify).
Proof.
  unfold obtainSource.
  apply (fetches_bind 0 1); [apply fetches_match_hash|]. intros [alg src].
  apply (fetches_bind 0 1); [apply fetches_path_exists|]. intros present.
  destruct present; [|apply fetches_fetch_source].
  apply (fetches_bind 0 1).
  { destruct (py_eq alg (Some "sha256")); [|apply fetches_ret].
    apply (fetches_bind 0 0); [apply fetches_calculate_sha256|].
    intros c. apply fetches_ret. }
  intros existing. destruct (py_eq existing src || is_none src).
  - apply (fetches_weaken 0); [lia | apply fetches_ret].
  - apply (fetches_bind 0 1); [apply fetches_os_remove|]. intros _.
    apply fetches_fetch_source.
Qed.

Lemma behaves_calculate_sha256 (ok : event -> Prop) (touched made : string -> Prop)
    (p : string) :
  behaves ok touched made (calculate_sha256 sha256 p).
Proof.
  unfold calculate_sha256. apply behaves_bind; [apply behaves_read_file|].
  intros c. apply (behaves_ret ok touched made).
Qed.

Lemma behaves_fetch_source (target url fp : string) (src : option string)
    (notify : bool) :
  behaves (acquirer_effect target url fp) (eq fp) (eq target)
          (fetch_source sha256 target url fp src notify).
Proof.
  unfold fetch_source, try_download.
  apply behaves_bind; [apply behaves_path_exists|]. intros present.
  apply behaves_bind; [now apply behaves_when, behaves_os_makedirs|]. intros _.
  apply behaves_bind; [now apply behaves_when, behaves_echo|]. intros _.
  apply behaves_bind.
  { apply behaves_try; [|apply (behaves_ret _ _ _)].
    apply behaves_bind; [now apply behaves_reqGet|]. intros [status_code content].
    destruct (Z.eqb status_code 200); [|apply (behaves_ret _ _ _)].
    apply behaves_bind; [now apply behaves_write_file|]. intros _.
    apply behaves_bind; [now apply behaves_when, behaves_echo|]. intros _.
    apply (behaves_ret _ _ _). }
  intros [failure|]; [apply (behaves_ret _ _ _)|].
  apply behaves_bind; [apply behaves_calculate_sha256|]. intros checksum.
  destruct (py_eq (Some checksum) src || is_none src); [apply (behaves_ret _ _ _)|].
  apply behaves_bind; [now apply behaves_os_remove|]. intros _.
  apply (behaves_ret _ _ _).
Qed.

Lemma behaves_obtainSource (target url : string) (hd : dict) (notify : bool) :
  behaves (acquirer_effect (realpath target) url (artifact_path realpath target url))
          (eq (artifact_path realpath target url)) (eq (realpath target))
          (obtainSource sha256 realpath target url hd notify).
Proof.
  unfold obtainSource. fold (artifact_path realpath target url).
  apply behaves_bind; [now apply behaves_match_hash|]. intros [alg src].
  apply behaves_bind; [apply behaves_path_exists|]. intros present.
  destruct present; [|apply behaves_fetch_source].
  apply behaves_bind.
  { destruct (py_eq alg (Some "sha256")); [|apply (behaves_ret _ _ _)].
    apply behaves_bind; [apply behaves_calculate_sha256|].
    intros c. apply (behaves_ret _ _ _). }
  intros existing. destruct (py_eq existing src || is_none src);
    [apply (behaves_ret _ _ _)|].
  apply behaves_bind; [now apply behaves_os_remove|]. intros _.
  apply behaves_fetch_source.
Qed.

(** X1: whatever a call returns or raises, it only adds to the trace, and
    what it adds is terminal output, requests for [source_url], writes and
    removals of the artifact's own path and the creation of the target
    directory: it sends at most one request, asks no other URL, writes and
    removes no other path and never removes a tree. *)
Theorem obtainSource_effects_confined (target url : string) (hd : dict)
    (notify : bool) (w : World) :
  let w' := (obtainSource sha256 realpath target url hd notify w).2 in
  (∃ t, trace w' = (trace w ++ t)%list
        ∧ Forall (acquirer_effect (realpath target) url
                    (artifact_path realpath target url)) t)
  ∧ (fetches (trace w') <= fetches (trace w) + 1)%nat.
Proof.
  split.
  - apply (behaves_obtainSource target url hd notify w).
  - apply fetches_obtainSource.
Qed.


End AcquirerEffects.


Section AcquirerVerdictFacts.

Variable sha256 : bytes -> string.
Variable realpath : string -> string.











(** X7: the cache is keyed by the last segment of the URL alone.  After
    a successful call, a call for any other URL with the same last
    segment and the same descriptor returns the same path with success,
    without a request (that URL is never asked) and without a change to
    the file system. *)
Theorem obtainSource_same_name_shares_cache (target url other_url : string)
    (hd : dict) (notify notify' : bool) (v : value) (w w1 : World) :
  basename url = basename other_url ->
  obtainSource sha256 realpath target url hd notify w = (Ret (true, v), w1) ->
  ∃ w2, obtainSource sha256 realpath target other_url hd notify' w1
        = (Ret (true, v), w2)
        ∧ fs w2 = fs w1
        ∧ fetches (trace w2) = fetches (trace w1).
Proof.
  intros Hb E.
  destruct (negotiate_by_allow_list supported_hashes hd) as [alg src] eqn:Hneg.
  destruct (obtainSource_outcome _ _ _ _ _ _ _ _ _ _ _ E Hneg)
    as (_ & _ & _ & _ & Hok & _).
  destruct (Hok eq_refl) as (Hv & Hvalid & _). injection Hv as ->.
  assert (Hsame : artifact_path realpath target other_url
                  = artifact_path realpath target url)
    by (unfold artifact_path; now rewrite Hb).
  destruct (obtainSource_hit sha256 realpath target other_url hd notify' alg src w1 Hneg)
    as (w2 & E2 & (_ & Hf & _) & Hfs).
  - now rewrite Hsame.
  - rewrite Hsame in E2. eauto.
Qed.

End AcquirerVerdictFacts.




(** The clip is obtained from one host and then asked for from another. *)
Lemma obtainSource_same_name_shares_cache_witness :
  ∃ w2, obtainSource demo_digest id "/cache" "http://mirror/pub/clip.mkv"
          [("sha256", "new")] false
          (obtainSource demo_digest id "/cache" clip_url [("sha256", "new")] false
             cold_online).2
        = (Ret (true, PStr "/cache/clip.mkv"), w2)
        ∧ fetches (trace w2) = 1%nat.
Proof.
  destruct (obtainSource_same_name_shares_cache demo_digest id "/cache" clip_url
              "http://mirror/pub/clip.mkv" [("sha256", "new")] false false
              (PStr "/cache/clip.mkv") cold_online
              (obtainSource demo_digest id "/cache" clip_url [("sha256", "new")] false
                 cold_online).2)
    as (w2 & E & _ & Hf).
  - vm_compute. reflexivity.
  - vm_compute. reflexivity.
  - exists w2. split; [exact E|]. rewrite Hf. vm_compute. reflexivity.
Defined.


(** ** Terminal output has no influence *)

Lemma actions_snoc (t : list event) (ev : event) :
  actions (t ++ [ev]) = (actions t ++ if is_echo ev then [] else [ev])%list.
Proof. unfold actions. rewrite List.filter_app. cbn. now destruct (is_echo ev). Qed.

Lemma same_but_echo_refl (w : World) : same_but_echo w w.
Proof. now repeat split. Qed.

Lemma same_but_echo_log (ev : event) (m1 m2 : gmap string node) (w1 w2 : World) :
  same_but_echo w1 w2 -> m1 = m2 ->
  same_but_echo (log ev (set_fs m1 w1)) (log ev (set_fs m2 w2)).
Proof.
  intros (Hf & Hr & Ht) ->. split; [reflexivity|]. split; [exact Hr|].
  cbn [trace log set_fs]. now rewrite !actions_snoc, Ht.
Qed.

Lemma alike_ret {A} (a : A) : alike (mret a : M A) (mret a).
Proof. intros w1 w2 H. now split. Qed.

Lemma alike_bind {A B} (m1 m2 : M A) (f1 f2 : A -> M B) :
  alike m1 m2 -> (∀ a, alike (f1 a) (f2 a)) -> alike (m1 ≫= f1) (m2 ≫= f2).
Proof.
  intros Hm Hf w1 w2 H. unfold mbind, M_bind, bind.
  destruct (Hm w1 w2 H) as [Hres Hw].
  destruct (m1 w1) as [[a1|e1] w1'], (m2 w2) as [[a2|e2] w2']; cbn [fst snd] in *;
    try discriminate.
  - injection Hres as ->. now apply Hf.
  - injection Hres as ->. now split.
Qed.

Lemma alike_try {A} (b1 b2 h1 h2 : M A) :
  alike b1 b2 -> alike h1 h2 -> alike (try_except b1 h1) (try_except b2 h2).
Proof.
  intros Hb Hh w1 w2 H. unfold try_except.
  destruct (Hb w1 w2 H) as [Hres Hw].
  destruct (b1 w1) as [[a1|e1] w1'], (b2 w2) as [[a2|e2] w2']; cbn [fst snd] in *;
    try discriminate.
  - now split.
  - now apply Hh.
Qed.

(** Whether a line is printed or not, and which, makes no difference. *)
Lemma alike_notes (b1 b2 : bool) (message1 message2 : string) (nl1 nl2 : bool) :
  alike (when b1 (echo message1 nl1)) (when b2 (echo message2 nl2)).
Proof.
  intros w1 w2 (Hf & Hr & Ht). unfold when, echo.
  destruct b1, b2; cbn [fst snd]; (split; [reflexivity|]);
    (split; [exact Hf|]); (split; [exact Hr|]); cbn [trace log];
    now rewrite ?actions_snoc, ?app_nil_r.
Qed.

Lemma alike_path_exists (p : string) : alike (path_exists p) (path_exists p).
Proof.
  intros w1 w2 H. unfold path_exists. cbn [fst snd]. destruct H as (Hf & ?).
  split; [now rewrite Hf | now split].
Qed.

Lemma alike_read_file (p : string) : alike (read_file p) (read_file p).
Proof.
  intros w1 w2 H. unfold read_file. cbv beta. destruct H as (Hf & Hrest). rewrite Hf.
  destruct (fs w2 !! p) as [[c|]|]; now repeat split.
Qed.

Lemma alike_write_file (p : string) (c : bytes) : alike (write_file p c) (write_file p c).
Proof.
  intros w1 w2 H. unfold write_file. cbv beta. pose proof H as (Hf & Hrest). rewrite Hf.
  destruct (fs w2 !! p) as [[c'|]|]; cbn [fst snd];
    (split; [reflexivity|]); try exact H;
    (apply same_but_echo_log; [exact H | reflexivity]).
Qed.

Lemma alike_os_remove (p : string) : alike (os_remove p) (os_remove p).
Proof.
  intros w1 w2 H. unfold os_remove. cbv beta. pose proof H as (Hf & Hrest). rewrite Hf.
  destruct (fs w2 !! p) as [[c'|]|]; cbn [fst snd];
    (split; [reflexivity|]); try exact H.
  apply same_but_echo_log; [exact H | reflexivity].
Qed.

Lemma alike_os_makedirs (p : string) (exist_ok : bool) :
  alike (os_makedirs p exist_ok) (os_makedirs p exist_ok).
Proof.
  intros w1 w2 H. unfold os_makedirs. cbv beta. pose proof H as (Hf & Hrest). rewrite Hf.
  destruct (String.eqb p ""); [now split|].
  destruct (fs w2 !! p) as [[c'|]|]; [now split | destruct exist_ok; now split|].
  cbn [fst snd]. split; [reflexivity|].
  apply same_but_echo_log; [exact H | reflexivity].
Qed.

Lemma alike_reqGet (url : string) : alike (reqGet url) (reqGet url).
Proof.
  intros w1 w2 H. unfold reqGet. cbv beta. pose proof H as (Hf & Hr & Ht). rewrite Hr.
  destruct (remote w2 url); cbn [fst snd]; (split; [reflexivity|]);
    (split; [exact Hf|]); (split; [exact Hr|]); cbn [trace log];
    now rewrite !actions_snoc, Ht.
Qed.

Lemma alike_match_hash (d : dict) (output1 output2 : bool) :
  alike (match_hash d output1) (match_hash d output2).
Proof.
  unfold match_hash. destruct d as [|kv d].
  - apply alike_bind; [apply alike_notes|]. intros _. apply alike_ret.
  - destruct (first_supported _);
      (apply alike_bind; [apply alike_notes|]; intros _; apply alike_ret).
Qed.

Section QuietAcquirer.

Variable sha256 : bytes -> string.
Variable realpath : string -> string.

Lemma alike_calculate_sha256 (p : string) :
  alike (calculate_sha256 sha256 p) (calculate_sha256 sha256 p).
Proof.
  unfold calculate_sha256. apply alike_bind; [apply alike_read_file|].
  intros c. apply alike_ret.
Qed.

Lemma alike_fetch_source (target url fp : string) (src : option string)
    (notify1 notify2 : bool) :
  alike (fetch_source sha256 target url fp src notify1)
        (fetch_source sha256 target url fp src notify2).
Proof.
  unfold fetch_source, try_download.
  apply alike_bind; [apply alike_path_exists|]. intros present.
  apply alike_bind.
  { destruct present; [apply alike_ret | apply alike_os_makedirs]. }
  intros _. apply alike_bind; [apply alike_notes|]. intros _.
  apply alike_bind.
  { apply alike_try; [|apply alike_ret].
    apply alike_bind; [apply alike_reqGet|]. intros [status_code content].
    destruct (Z.eqb status_code 200); [|apply alike_ret].
    apply alike_bind; [apply alike_write_file|]. intros _.
    apply alike_bind; [apply alike_notes|]. intros _. apply alike_ret. }
  intros [failure|]; [apply alike_ret|].
  apply alike_bind; [apply alike_calculate_sha256|]. intros checksum.
  destruct (py_eq (Some checksum) src || is_none src); [apply alike_ret|].
  apply alike_bind; [apply alike_os_remove|]. intros _. apply alike_ret.
Qed.

Lemma alike_obtainSource (target url : string) (hd : dict) (notify1 notify2 : bool) :
  alike (obtainSource sha256 realpath target url hd notify1)
        (obtainSource sha256 realpath target url hd notify2).
Proof.
  unfold obtainSource.
  apply alike_bind; [apply alike_match_hash|]. intros [alg src].
  apply alike_bind; [apply alike_path_exists|]. intros present.
  destruct present; [|apply alike_fetch_source].
  apply alike_bind.
  { destruct (py_eq alg (Some "sha256")); [|apply alike_ret].
    apply alike_bind; [apply alike_calculate_sha256|]. intros c. apply alike_ret. }
  intros existing. destruct (py_eq existing src || is_none src); [apply alike_ret|].
  apply alike_bind; [apply alike_os_remove|]. intros _. apply alike_fetch_source.
Qed.

(** X8: the flag [notify_on_download] decides about terminal output and
    about nothing else.  With and without it a call has the same outcome
    (the same tuple or the same exception), leaves the same file system
    and sends, writes and removes the same things in the same order. *)
Theorem obtainSource_notify_only_prints (target url : string) (hd : dict)
    (w : World) :
  let loud := obtainSource sha256 realpath target url hd true w in
  let silent := obtainSource sha256 realpath target url hd false w in
  loud.1 = silent.1
  ∧ fs loud.2 = fs silent.2
  ∧ actions (trace loud.2) = actions (trace silent.2).
Proof.
  destruct (alike_obtainSource target url hd true false w w (same_but_echo_refl w))
    as (Hres & Hfs & _ & Ht).
  auto.
Qed.

End QuietAcquirer.

(** ** Further properties of the hash negotiator and of the digest *)

(** X9: the flag [output] decides about one line of terminal text and
    about nothing else.  Without it the world is left exactly as it was;
    with it exactly one line is printed, the file system and the server
    are as before and the returned pair is the same; the line announces a
    compatible method exactly when an algorithm is returned. *)
Theorem match_hash_only_notes (hash_dict : dict) (w : World) :
  ∃ r note,
    match_hash hash_dict false w = (Ret r, w)
    ∧ match_hash hash_dict true w = (Ret r, log (EvEcho note true) w)
    ∧ (is_Some r.1 <->
       note = "Note: Compatible hashing method found. Using sha256")
    ∧ (hash_dict = [] <-> note = "Note: This file cannot be hash-verified!").
Proof.
  unfold match_hash. destruct hash_dict as [|kv d].
  - eexists _, _. split; [reflexivity|]. split; [reflexivity|].
    split; split; try reflexivity; try discriminate.
    intros [? [=]].
  - rewrite first_supported_sha256.
    destruct (contains (keys (kv :: d)) "sha256").
    + eexists _, _. split; [reflexivity|]. split; [reflexivity|].
      split; split; try reflexivity; try discriminate. eauto.
    + eexists _, _. split; [reflexivity|]. split; [reflexivity|].
      split; split; try reflexivity; try discriminate.
      intros [? [=]].
Qed.

Lemma blocks_sizes (size fuel : nat) (c : bytes) :
  (0 < size)%nat ->
  Forall (fun byte_block => (0 < length byte_block <= size)%nat) (blocks fuel size c).
Proof.
  intros Hs. revert c. induction fuel as [|fuel IH]; intros c; [constructor|].
  destruct c as [|b c]; [constructor|]. cbn [blocks]. constructor; [|apply IH].
  rewrite length_take. cbn [length]. lia.
Qed.

Lemma blocks_count (size fuel : nat) (c : bytes) :
  (0 < size)%nat -> (length c <= fuel)%nat ->
  (length (blocks fuel size c) * size < length c + size)%nat
  ∧ (length c <= length (blocks fuel size c) * size)%nat.
Proof.
  intros Hs. revert c. induction fuel as [|fuel IH]; intros c Hc.
  - destruct c; [cbn; lia | cbn in Hc; lia].
  - destruct c as [|b c]; [cbn; lia|]. cbn [blocks length].
    destruct (IH (drop size (b :: c))) as [H1 H2].
    + rewrite length_drop. cbn [length] in *. lia.
    + rewrite length_drop in H1, H2. cbn [length] in *.
      destruct (length (blocks fuel size (drop size (b :: c)))) as [|n];
        cbn [Nat.mul] in *; lia.
Qed.

Section DigestFacts.

Variable sha256 : bytes -> string.

(** X10: the digest of a file does not depend on the block-wise reading.
    On a regular file the call returns the digest of the whole content,
    whatever its length, and leaves the world as it was; a directory gives
    [IsADirectoryError] and a missing path [FileNotFoundError].  The
    content is read in blocks that are never empty and never longer than
    4096 bytes, as few of them as cover it. *)
Theorem calculate_sha256_whole_content (file_path : string) (w : World) :
  calculate_sha256 sha256 file_path w
  = (match fs w !! file_path with
     | Some (File c) => Ret (sha256 c)
     | Some Dir => Raise IsADirectoryError
     | None => Raise FileNotFoundError
     end, w)
  ∧ ∀ c, concat (read_blocks c) = c
         ∧ Forall (fun byte_block => (0 < length byte_block <= 4096)%nat)
                  (read_blocks c)
         ∧ length (read_blocks c) = ((length c + 4095) / 4096)%nat.
Proof.
  split.
  - rewrite calculate_sha256_run. now destruct (fs w !! file_path) as [[c|]|].
  - intros c. split; [|split].
    + rewrite <- (read_blocks_concat c) at 2.
      generalize (read_blocks c). intros l.
      change (concat l) with (([] : bytes) ++ concat l)%list.
      generalize ([] : bytes). induction l as [|b l IH]; intros acc.
      * cbn. now rewrite app_nil_r.
      * cbn [concat foldl]. rewrite <- IH. now rewrite app_assoc.
    + apply blocks_sizes. lia.
    + destruct (blocks_count 4096 (length c) c) as [H1 H2]; [lia | lia |].
      fold (read_blocks c) in H1, H2. apply Nat.div_unique with
        (r := (length c + 4095 - 4096 * length (read_blocks c))%nat); lia.
Qed.

End DigestFacts.

(** ** Further properties of the worker ramp *)

Section RampOutcomes.

Variable workMan : Z -> string -> bool * payload.
Variable ffmpeg_cmd : string.

Lemma accepted_no_stop (output : bool * payload) :
  is_Some (accepted output) -> stop_reason output = None.
Proof.
  unfold accepted, stop_reason. destruct output as [[|] [d|m]]; cbn [fst snd];
    intros [s Hs]; try discriminate.
  now destruct (below_real_time (speed m)).
Qed.

(** X11: the ramp ends at the first refusal, and the call returns.  When
    the primitive's outcomes for 1 to [k] workers are measurements at or
    above real time and its outcome for [k + 1] workers is an error or a
    measurement below real time, then (given more than [k] turns) the call
    returns: its run list is those [k] measurements in order, the success
    flag tells whether [k] is positive, and the summary, which exists when
    [k] is positive, carries the one reason of that refusal. *)
Theorem benchmark_stops_at_first_refusal (k fuel : nat) (reason : payload) :
  (∀ j : nat, (j < k)%nat ->
     is_Some (accepted (workMan (1 + Z.of_nat j) ffmpeg_cmd))) ->
  stop_reason (workMan (1 + Z.of_nat k) ffmpeg_cmd) = Some reason ->
  (k < fuel)%nat ->
  ∃ rs res,
    benchmark workMan fuel ffmpeg_cmd = Some (Ret (bool_decide (k ≠ 0%nat), rs, res))
    ∧ length rs = k
    ∧ (∀ j : nat, (j < k)%nat ->
         accepted (workMan (1 + Z.of_nat j) ffmpeg_cmd) = rs !! j)
    ∧ failure_reasons <$> res = (if decide (k = 0%nat) then None else Some [reason]).
Proof.
  intros Hacc Hstop Hfuel.
  destruct (ramp_loop_stops workMan ffmpeg_cmd k ramp_start reason eq_refl)
    as (st & E & Hlen & Hfr).
  { intros j Hj. split; [now apply Hacc | now apply accepted_no_stop, Hacc]. }
  { exact Hstop. }
  cbn [ramp_start runs failure_reason length] in Hlen, Hfr.
  destruct (ramp_loop_inv workMan ffmpeg_cmd _ _ _ (ramp_inv_start workMan ffmpeg_cmd) E)
    as [(_ & _ & Hruns) _].
  apply (ramp_loop_more_fuel workMan ffmpeg_cmd _ (fuel - S k)) in E.
  replace (S k + (fuel - S k))%nat with fuel in E by lia.
  unfold benchmark. rewrite E, ramp_result_cases.
  assert (Hsame : ∀ j : nat, (j < k)%nat ->
            accepted (workMan (1 + Z.of_nat j) ffmpeg_cmd) = runs st !! j).
  { intros j Hj. destruct (lookup_lt_is_Some_2 (runs st) j) as [s Hs]; [lia|].
    rewrite Hs. replace (1 + Z.of_nat j) with (Z.of_nat j + 1) by lia.
    now apply Hruns. }
  destruct (last (runs st)) as [final|] eqn:El.
  - assert (k ≠ 0%nat).
    { intros ->. destruct (runs st); [discriminate El | discriminate Hlen]. }
    eexists _, _. rewrite bool_decide_eq_true_2 by assumption.
    split; [reflexivity|]. split; [exact Hlen|]. split; [exact Hsame|].
    cbn. rewrite Hfr. now destruct (decide (k = 0%nat)).
  - apply last_None in El. rewrite El in Hlen. cbn in Hlen. subst k.
    eexists _, _. split; [reflexivity|]. rewrite El. split; [reflexivity|].
    split; [intros j Hj; lia | reflexivity].
Qed.

(** X12: the ramp has no bound of its own.  When the primitive returns a
    measurement at or above real time for every number of workers, no
    number of turns brings the loop to its end: the call does not
    return. *)
Theorem benchmark_never_returns (fuel : nat) :
  (∀ j : nat, is_Some (accepted (workMan (1 + Z.of_nat j) ffmpeg_cmd))) ->
  benchmark workMan fuel ffmpeg_cmd = None.
Proof.
  intros Hacc. unfold benchmark.
  rewrite (ramp_loop_unbounded workMan ffmpeg_cmd fuel ramp_start eq_refl);
    [reflexivity|].
  intros j. split; [apply Hacc | apply accepted_no_stop, Hacc].
Qed.

End RampOutcomes.

(** Three measurements, then 0.6 with four workers: the call returns the
    three, with the reason "performance", for any number of turns above
    three. *)
Lemma benchmark_stops_at_first_refusal_witness :
  ∃ rs res, benchmark saturating_worker 50 "ffmpeg -i clip.mkv"
            = Some (Ret (true, rs, res))
            ∧ length rs = 3%nat
            ∧ failure_reasons <$> res = Some [Detail "performance"].
Proof.
  destruct (benchmark_stops_at_first_refusal saturating_worker "ffmpeg -i clip.mkv"
              3 50 (Detail "performance"))
    as (rs & res & E & Hlen & _ & Hres).
  - intros j Hj. destruct j as [|[|[|j]]]; [vm_compute; eauto ..|lia].
  - vm_compute. reflexivity.
  - lia.
  - exists rs, res. split; [exact E|]. split; [exact Hlen | exact Hres].
Defined.

(** A thousand turns with a worker that never degrades. *)
Lemma benchmark_never_returns_witness :
  benchmark steady_worker 1000 "ffmpeg -i clip.mkv" = None.
Proof.
  apply (benchmark_never_returns steady_worker "ffmpeg -i clip.mkv" 1000).
  intros j. vm_compute. eauto.
Defined.

(** ** Further properties of the archive unpacker *)



Lemma join_relative (target_path name : string) :
  plain_dir target_path -> relative name ->
  join target_path name = target_path ++ "/" ++ name.
Proof.
  intros [Hne Hend] Hrel. unfold join. unfold relative in Hrel. rewrite Hrel, Hend.
  now rewrite (proj2 (String.eqb_neq _ _) Hne).
Qed.



Lemma cleared_target (target_path : string) (m : gmap string node) :
  cleared target_path m !! target_path = Some Dir.
Proof. apply lookup_insert_eq. Qed.

Lemma cleared_outside (target_path q : string) (m : gmap string node) :
  q ≠ target_path -> below target_path q = false ->
  cleared target_path m !! q = m !! q.
Proof.
  intros Hq Hb. unfold cleared. rewrite lookup_insert_ne by congruence.
  destruct (m !! target_path); [|reflexivity].
  destruct (m !! q) as [x|] eqn:Eq.
  - apply map_lookup_filter_Some. split; [|exact Hb].
    now rewrite lookup_delete_ne by congruence.
  - apply map_lookup_filter_None_2. left. now rewrite lookup_delete_ne by congruence.
Qed.

Lemma cleared_below (target_path q : string) (m : gmap string node) :
  is_Some (m !! target_path) -> below target_path q = true ->
  cleared target_path m !! q = None.
Proof.
  intros [x Hx] Hb. unfold cleared. rewrite Hx.
  rewrite lookup_insert_ne by (intros ->; rewrite not_below_self in Hb; discriminate).
  apply map_lookup_filter_None_2. right. intros y _ Hf.
  change (below target_path q = false) in Hf. congruence.
Qed.

Lemma cleared_free (w : World) (target_path q : string) :
  target_free w target_path -> below target_path q = true ->
  cleared target_path (fs w) !! q = None.
Proof.
  intros [Hdir|Hnone] Hb; [apply cleared_below; [rewrite Hdir; eauto | exact Hb]|].
  unfold cleared. rewrite (Hnone target_path) by now left.
  rewrite lookup_insert_ne by (intros ->; rewrite not_below_self in Hb; discriminate).
  apply Hnone. now right.
Qed.

Lemma unpacked_snoc (target_path : string) (members : list (string * bytes))
    (member : string * bytes) (m : gmap string node) :
  unpacked target_path (members ++ [member]) m
  = <[join target_path member.1 := File member.2]> (unpacked target_path members m).
Proof. unfold unpacked. now rewrite foldl_app. Qed.



Lemma unpacked_files (target_path q : string) (members : list (string * bytes))
    (m : gmap string node) :
  q ∈ member_paths target_path members ->
  ∃ content, unpacked target_path members m !! q = Some (File content).
Proof.
  induction members as [|member members IH] using rev_ind; [intros H; inversion H|].
  unfold member_paths. rewrite fmap_app, elem_of_app. cbn.
  rewrite list_elem_of_singleton, unpacked_snoc. intros Hin.
  destruct (decide (q = join target_path member.1)) as [->|Hne].
  - rewrite lookup_insert_eq. eauto.
  - rewrite lookup_insert_ne by congruence. apply IH. tauto.
Qed.




Section UnpackerOutcomes.

Variable unzip : bytes -> option (list (string * bytes)).
Variable untar_gz : bytes -> option (list (string * bytes)).

(** Lines 129 to 137, then the rest of the function on the cleared
    directory. *)
Lemma unpackArchive_prelude (archive_path target_path : string) (w : World) :
  target_path ≠ "" -> target_free w target_path ->
  ∃ t, unpackArchive unzip untar_gz archive_path target_path w
       = (match archive_decoder unzip untar_gz archive_path with
          | Some decode => extractall decode archive_path target_path
          | None => mret tt
          end ;; echo " success!" true)
           (mkWorld (cleared target_path (fs w)) (remote w) t).
Proof.
  intros Hne Hfree. apply String.eqb_neq in Hne.
  assert (Hd : (if endswith archive_path ".zip"
                then extractall unzip archive_path target_path
                else if endswith archive_path ".tar.gz"
                     then extractall untar_gz archive_path target_path
                     else mret tt)
               = match archive_decoder unzip untar_gz archive_path with
                 | Some decode => extractall decode archive_path target_path
                 | None => mret tt
                 end).
  { unfold archive_decoder. destruct (endswith archive_path ".zip"); [reflexivity|].
    now destruct (endswith archive_path ".tar.gz"). }
  unfold unpackArchive. rewrite Hd.
  generalize (match archive_decoder unzip untar_gz archive_path with
              | Some decode => extractall decode archive_path target_path
              | None => mret tt
              end). intros rest.
  unfold cleared.
  unfold mbind at 1 2 3 4, M_bind at 1 2 3 4, bind at 1 2 3 4.
  unfold path_exists, when, rmtree, echo, os_makedirs, mret, M_ret, ret.
  destruct Hfree as [Ht|Hnone].
  - rewrite Ht, bool_decide_eq_true_2 by eauto. cbv beta iota.
    unfold mbind at 1, M_bind at 1, bind at 1.
    rewrite Ht. cbn [fs log set_fs remote trace].
    assert (filter (fun kv : string * node => below target_path kv.1 = false)
              (delete target_path (fs w)) !! target_path = None) as Hgone
      by (apply map_lookup_filter_None_2; left; apply lookup_delete_eq).
    rewrite Hne, Hgone. cbn [fs log set_fs remote trace]. eexists. reflexivity.
  - rewrite (Hnone target_path) by now left.
    rewrite bool_decide_eq_false_2 by (intros [? ?]; discriminate).
    cbv beta iota. rewrite Hne, (Hnone target_path) by now left.
    cbn [fs log set_fs remote trace]. eexists. reflexivity.
Qed.

(** What a failing extraction leaves: the cleared directory. *)
Lemma unpackArchive_fails_cleared (archive_path target_path : string)
    (decode : bytes -> option (list (string * bytes))) (e : exn) (w : World) :
  archive_decoder unzip untar_gz archive_path = Some decode ->
  target_path ≠ "" -> target_free w target_path ->
  (∀ t, extractall decode archive_path target_path
          (mkWorld (cleared target_path (fs w)) (remote w) t)
        = (Raise e, mkWorld (cleared target_path (fs w)) (remote w) t)) ->
  ∃ w', unpackArchive unzip untar_gz archive_path target_path w = (Raise e, w')
        ∧ fs w' !! target_path = Some Dir
        ∧ (∀ q, below target_path q = true -> fs w' !! q = None)
        ∧ (∀ q, q ≠ target_path -> below target_path q = false ->
             fs w' !! q = fs w !! q).
Proof.
  intros Hdec Hne Hfree Hex.
  destruct (unpackArchive_prelude archive_path target_path w Hne Hfree) as (t & E).
  rewrite E, Hdec. rewrite (bind_raise _ _ _ _ _ (Hex t)).
  eexists. split; [reflexivity|]. cbn [fs]. split; [apply cleared_target|].
  split; [intros q Hq; now apply cleared_free|].
  intros q Hq Hb. now apply cleared_outside.
Qed.



(** X14: an archive that lies below the target directory is destroyed by
    the call before it is read.  The directory is removed with everything
    below it, the archive included, so opening the archive raises
    [FileNotFoundError], whatever the archive held; the target directory
    is left empty. *)
Theorem unpackArchive_archive_below_target (archive_path target_path : string)
    (decode : bytes -> option (list (string * bytes))) (w : World) :
  archive_decoder unzip untar_gz archive_path = Some decode ->
  target_path ≠ "" -> fs w !! target_path = Some Dir ->
  below target_path archive_path = true ->
  ∃ w', unpackArchive unzip untar_gz archive_path target_path w
        = (Raise FileNotFoundError, w')
        ∧ fs w' !! target_path = Some Dir
        ∧ (∀ q, below target_path q = true -> fs w' !! q = None)
        ∧ (∀ q, q ≠ target_path -> below target_path q = false ->
             fs w' !! q = fs w !! q).
Proof.
  intros Hdec Hne Hdir Hb.
  apply (unpackArchive_fails_cleared archive_path target_path decode); auto.
  - now left.
  - intros t. unfold extractall. apply bind_raise. unfold read_file. cbn [fs].
    rewrite cleared_below; [reflexivity | rewrite Hdir; eauto | exact Hb].
Qed.


(** X16: a target path that cannot be a directory is refused before
    anything is changed or printed: a regular file at the path gives
    [NotADirectoryError], the empty path [FileNotFoundError], and the
    world is as it was. *)
Theorem unpackArchive_refuses_bad_target (archive_path : string) (w : World) :
  (∀ target_path content, fs w !! target_path = Some (File content) ->
     unpackArchive unzip untar_gz archive_path target_path w
     = (Raise NotADirectoryError, w))
  ∧ (fs w !! "" = None ->
     unpackArchive unzip untar_gz archive_path "" w = (Raise FileNotFoundError, w)).
Proof.
  split.
  - intros target_path content Ht. unfold unpackArchive.
    rewrite (bind_ret _ _ _ _ _ (path_exists_run target_path w)).
    rewrite Ht, bool_decide_eq_true_2 by eauto.
    apply bind_raise. unfold when. apply bind_raise. unfold rmtree. now rewrite Ht.
  - intros Ht. unfold unpackArchive.
    rewrite (bind_ret _ _ _ _ _ (path_exists_run "" w)).
    rewrite Ht, bool_decide_eq_false_2 by (intros [? ?]; discriminate).
    erewrite bind_ret by reflexivity. apply bind_raise. reflexivity.
Qed.

End UnpackerOutcomes.


(** The bundle was stored inside the directory it is unpacked to. *)
Lemma unpackArchive_archive_below_target_witness :
  ∃ w', unpackArchive demo_unzip demo_unzip "/ffmpeg/ffmpeg_files/bundle.zip"
          "/ffmpeg/ffmpeg_files" second_install = (Raise FileNotFoundError, w')
        ∧ fs w' !! "/ffmpeg/ffmpeg_files/ffmpeg" = None.
Proof.
  destruct (unpackArchive_archive_below_target demo_unzip demo_unzip
              "/ffmpeg/ffmpeg_files/bundle.zip" "/ffmpeg/ffmpeg_files" demo_unzip
              second_install) as (w' & E & _ & Hgone & _).
  - vm_compute. reflexivity.
  - discriminate.
  - vm_compute. reflexivity.
  - vm_compute. reflexivity.
  - exists w'. split; [exact E|]. apply Hgone. vm_compute. reflexivity.
Defined.


(** ** Further properties of the report output *)

Section ReportOutcomes.

Variable Data : Type.
Variable dumps : Data -> string.


End ReportOutcomes.


(** ** The client: loading ffmpeg and the test files *)

Lemma has_slash_basename (p : string) : has_slash (basename p) = false.
Proof.
  induction p as [|c r IH]; [reflexivity|]. cbn [basename].
  destruct (has_slash r) eqn:Hr; [exact IH|].
  destruct (Ascii.eqb c slash) eqn:Hc; [exact Hr|].
  cbn [has_slash]. now rewrite Hc.
Qed.

Lemma relative_no_slash (n : string) : has_slash n = false -> relative n.
Proof.
  unfold relative, startswith. destruct n as [|c r]; [reflexivity|].
  cbn [has_slash]. destruct (Ascii.eqb c slash) eqn:Hc; [discriminate|]. intros _.
  cbn [String.prefix]. destruct (ascii_dec "/" c) as [<-|]; [|reflexivity].
  rewrite Ascii.eqb_refl in Hc. discriminate.
Qed.







Section ClientPaths.

Variable realpath : string -> string.

(** Where [obtainSource] keeps an artifact, for a resolved directory. *)
Lemma artifact_path_plain (target url : string) :
  realpath target = target -> plain_dir target ->
  artifact_path realpath target url = target ++ "/" ++ basename url.
Proof.
  intros Hr Hp. unfold artifact_path. rewrite Hr.
  apply join_relative; [exact Hp|]. apply relative_no_slash, has_slash_basename.
Qed.

End ClientPaths.



Lemma cached_valid_kept (sha256 : bytes -> string) (made : string -> Prop)
    (w w' : World) (q : string) (src : option string) :
  kept made w w' q -> cached_valid sha256 w q src -> cached_valid sha256 w' q src.
Proof.
  intros Hk [Hs Hv]. destruct (kept_file _ _ _ _ Hk) as [Hf Hi].
  split; [auto|]. destruct Hv as [->|(c & Hc & ->)]; [now left|right].
  exists c. split; [congruence | reflexivity].
Qed.

Lemma expected_digest_negotiated (file : test_file) (alg src : option string) :
  negotiate_by_allow_list supported_hashes (source_hashs file) = (alg, src) ->
  src = expected_digest file.
Proof.
  unfold expected_digest, supported_hashes. cbn [negotiate_by_allow_list].
  rewrite first_supported_sha256.
  destruct (contains (keys (source_hashs file)) "sha256"); now intros [= <- <-].
Qed.

Lemma acquirer_no_rmtree (target url fp : string) (ev : event) :
  acquirer_effect target url fp ev -> no_rmtree ev.
Proof. now destruct ev. Qed.


Section ClientFacts.

Variable sha256 : bytes -> string.
Variable realpath : string -> string.
Variable unzip : bytes -> option (list (string * bytes)).
Variable untar_gz : bytes -> option (list (string * bytes)).

(** One turn of the download loop. *)
Lemma obtain_test_files_cons (video_path : string) (file : test_file)
    (rest : list test_file) (w : World) :
  obtain_test_files sha256 realpath video_path (file :: rest) w
  = match obtainSource sha256 realpath video_path (source_url file) (source_hashs file)
            false (log (EvEcho ("| " ++ quote ++ basename (name file) ++ quote ++ " -")
                               false) w) with
    | (Ret (true, _), w1) =>
        obtain_test_files sha256 realpath video_path rest
          (log (EvEcho " success!" true) w1)
    | (Ret (false, output), w1) =>
        (Ret Exited,
         log (EvEcho "Press any key to exit" true)
           (log (EvEcho ("The following Error occured: " ++ str output) true)
              (log (EvEcho "" true) (log (EvEcho " Error" true) w1))))
    | (Raise e, w1) => (Raise e, w1)
    end.
Proof.
  cbn [obtain_test_files]. unfold mbind, M_bind, bind, echo, pause.
  destruct (obtainSource _ _ _ _ _ _ _) as [[[[|] output]|e] w1]; reflexivity.
Qed.


(** What the download loop may do, whatever its outcome. *)
Lemma behaves_obtain_test_files (video_path : string) (files : list test_file) :
  realpath video_path = video_path -> plain_dir video_path ->
  behaves no_rmtree (fun q => q ∈ current_file video_path <$> files) (eq video_path)
          (obtain_test_files sha256 realpath video_path files).
Proof.
  intros Hr Hp. induction files as [|file rest IH]; [apply (behaves_ret _ _ _)|].
  cbn [obtain_test_files].
  apply behaves_bind; [now apply behaves_echo|]. intros _.
  apply behaves_bind.
  { eapply behaves_weaken; [| | |apply behaves_obtainSource].
    - apply acquirer_no_rmtree.
    - intros q <-. rewrite (artifact_path_plain realpath _ _ Hr Hp).
      apply list_elem_of_here.
    - intros q <-. now symmetry. }
  intros [[|] output].
  - apply behaves_bind; [now apply behaves_echo|]. intros _.
    eapply behaves_weaken; [| | |exact IH]; auto.
    intros q Hq. now apply list_elem_of_further.
  - repeat (apply behaves_bind; [now apply behaves_echo|]; intros _).
    apply (behaves_ret _ _ _).
Qed.

(** X18: the test files are obtained strictly one after the other, and a
    failure ends the loop for good.  Obtaining two lists in a row is
    obtaining the first and, only when that went through, the second from
    the world the first left; when the first part ends the client or
    raises, that is the outcome, and no file of the second part is
    requested, written or removed. *)
Theorem obtain_test_files_in_sequence (video_path : string)
    (first_part second_part : list test_file) (w : World) :
  obtain_test_files sha256 realpath video_path (first_part ++ second_part) w
  = match obtain_test_files sha256 realpath video_path first_part w with
    | (Ret (Continue _), w1) =>
        obtain_test_files sha256 realpath video_path second_part w1
    | stopped => stopped
    end.
Proof.
  revert w. induction first_part as [|file rest IH]; intros w; [reflexivity|].
  cbn [app]. rewrite !obtain_test_files_cons.
  destruct (obtainSource _ _ _ _ _ _ _) as [[[[|] output]|e] w1];
    [apply IH | reflexivity | reflexivity].
Qed.

Lemma obtain_test_files_valid (video_path : string) (files : list test_file)
    (w w' : World) :
  realpath video_path = video_path -> plain_dir video_path ->
  NoDup (current_file video_path <$> files) ->
  obtain_test_files sha256 realpath video_path files w = (Ret (Continue tt), w') ->
  ∀ file, file ∈ files ->
    cached_valid sha256 w' (current_file video_path file) (expected_digest file).
Proof.
  intros Hr Hp. revert w. induction files as [|f rest IH]; intros w Hnd H file Hin.
  { inversion Hin. }
  rewrite obtain_test_files_cons in H. rewrite fmap_cons in Hnd.
  apply NoDup_cons in Hnd as [Hfresh Hnd].
  destruct (obtainSource _ _ _ _ _ _ _) as [[[[|] output]|e] w1] eqn:E;
    try discriminate.
  apply elem_of_cons in Hin as [->|Hin]; [|now apply (IH _ Hnd H)].
  destruct (negotiate_by_allow_list supported_hashes (source_hashs f))
    as [alg src] eqn:Hneg.
  destruct (obtainSource_outcome _ _ _ _ _ _ _ _ _ _ _ E Hneg)
    as (_ & _ & _ & _ & Hok & _).
  destruct (Hok eq_refl) as (_ & Hv & _).
  rewrite (artifact_path_plain realpath _ _ Hr Hp) in Hv.
  rewrite (expected_digest_negotiated _ _ _ Hneg) in Hv.
  destruct (behaves_obtain_test_files video_path rest Hr Hp
              (log (EvEcho " success!" true) w1)) as (_ & _ & Hk).
  rewrite H in Hk. cbn [snd] in Hk.
  eapply cached_valid_kept; [apply Hk; exact Hfresh|].
  eapply cached_valid_fs; [|exact Hv]. reflexivity.
Qed.

(** X19: when the download loop goes through, every test file is in
    place at the path the benchmark loop will read it from, provided the
    video directory is resolved and no two files share that path: a node
    is at the path, and when the file's descriptor offers a sha256
    digest, it is a regular file with exactly that digest, also for the
    files obtained early in the loop. *)
Theorem obtain_test_files_all_verified (video_path : string)
    (files : list test_file) (w w' : World) :
  realpath video_path = video_path -> plain_dir video_path ->
  NoDup (current_file video_path <$> files) ->
  obtain_test_files sha256 realpath video_path files w = (Ret (Continue tt), w') ->
  ∀ file, file ∈ files ->
    is_Some (fs w' !! current_file video_path file)
    ∧ ∀ digest, expected_digest file = Some digest ->
        ∃ content, file_at w' (current_file video_path file) = Some content
                   ∧ sha256 content = digest.
Proof.
  intros Hr Hp Hnd H file Hin.
  destruct (obtain_test_files_valid video_path files w w' Hr Hp Hnd H file Hin)
    as [Hs Hv].
  split; [exact Hs|]. intros digest Hd. rewrite Hd in Hv.
  destruct Hv as [Hv|(content & Hc & Hv)]; [discriminate|].
  exists content. split; [exact Hc | congruence].
Qed.




End ClientFacts.

(** A machine without downloads and a server that offers both clips. *)
Lemma obtain_test_files_all_verified_witness :
  ∃ w', obtain_test_files demo_digest id "/videos" survey_clips fresh_machine
        = (Ret (Continue tt), w')
        ∧ file_at w' "/videos/clip.mkv" = Some (encode "new")
        ∧ is_Some (fs w' !! "/videos/tune.mkv").
Proof.
  exists (obtain_test_files demo_digest id "/videos" survey_clips fresh_machine).2.
  assert (E : obtain_test_files demo_digest id "/videos" survey_clips fresh_machine
              = (Ret (Continue tt),
                 (obtain_test_files demo_digest id "/videos" survey_clips
                    fresh_machine).2)) by (vm_compute; reflexivity).
  pose proof (obtain_test_files_all_verified demo_digest id "/videos" survey_clips
                fresh_machine _ eq_refl
                ltac:(split; [discriminate | vm_compute; reflexivity])
                ltac:(vm_compute; repeat constructor;
                      rewrite ?list_elem_of_singleton; try discriminate;
                      apply not_elem_of_nil)
                E) as Hall.
  split; [exact E|]. split.
  - destruct (Hall (mkTestFile "clips/clip" "http://host/media/clip.mkv"
                      [("sha256", "new")])) as [_ Hd]; [apply list_elem_of_here|].
    destruct (Hd "new" eq_refl) as (content & Hc & Hsha).
    assert (Hp : current_file "/videos"
                   (mkTestFile "clips/clip" "http://host/media/clip.mkv"
                      [("sha256", "new")]) = "/videos/clip.mkv")
      by (vm_compute; reflexivity).
    rewrite Hp in Hc. rewrite Hc. f_equal.
    rewrite <- (String.list_byte_of_string_of_list_byte content).
    unfold demo_digest in Hsha. now rewrite Hsha.
  - destruct (Hall (mkTestFile "clips/tune" "http://host/media/tune.mkv"
                      [("md5", "0f0f")])) as [Hs _];
      [apply list_elem_of_further, list_elem_of_here|].
    assert (Hp : current_file "/videos"
                   (mkTestFile "clips/tune" "http://host/media/tune.mkv"
                      [("md5", "0f0f")]) = "/videos/tune.mkv")
      by (vm_compute; reflexivity).
    now rewrite Hp in Hs.
Defined.


